(** * The GitHub issue harvester of pullSharkLLM

    A shallow embedding of
    [llm-app/templates/multimodal_rag/data/source/issueScraper.py]:
    the HTTP fetcher [fetch_json], the pagination walker
    [fetch_closed_issues], the enricher [process_issue] with its three
    lookups, and the orchestrator [scrapIssues].

    Python values are JSON values; the remote API, the two clocks and the
    console are an explicit [world] threaded through every coroutine. *)

From Stdlib Require Import List String Ascii ZArith Bool Lia PeanoNat.
From Stdlib Require Import DecimalString.
From Stdlib Require DecimalZ DecimalPos.
Import ListNotations.
Local Open Scope string_scope.
Set Warnings "-register-all".

(** ** Python values *)

(** What [resp.json()] decodes and what the scraper builds: [None] is
    [JNull], a [dict] is its items in insertion order.  Numbers are the
    integers the API serves. *)
Inductive json : Type :=
| JNull
| JBool (b : bool)
| JNum (n : Z)
| JStr (s : string)
| JList (l : list json)
| JObj (kv : list (string * json)).

(** The exceptions the scraper's own expressions can raise. *)
Inductive exn : Type :=
| KeyError (k : string)
| IndexError
| TypeError
| AttributeError.

(** A Python expression: a value, or a raised exception. *)
Definition py (A : Type) : Type := (exn + A)%type.

Module Py.

Definition ok {A : Type} (a : A) : py A := inr a.
Definition raise {A : Type} (e : exn) : py A := inl e.

Definition bind {A B : Type} (m : py A) (k : A -> py B) : py B :=
  match m with
  | inl e => inl e
  | inr a => k a
  end.

(** Value stored under [k]; the keys of a dict are distinct, so the
    first item found is the only one. *)
Fixpoint lookup (k : string) (kv : list (string * json)) : option json :=
  match kv with
  | [] => None
  | (k', v) :: rest => if String.eqb k' k then Some v else lookup k rest
  end.

(** [d[k]] *)
Definition subscript (d : json) (k : string) : py json :=
  match d with
  | JObj kv =>
      match lookup k kv with
      | Some v => ok v
      | None => raise (KeyError k)
      end
  | _ => raise TypeError
  end.

(** [d.get(k, default)]; [d.get(k)] is [get d k JNull]. *)
Definition get (d : json) (k : string) (default : json) : py json :=
  match d with
  | JObj kv =>
      match lookup k kv with
      | Some v => ok v
      | None => ok default
      end
  | _ => raise AttributeError
  end.

(** [k] occurs in [s] as a substring. *)
Fixpoint infix (k s : string) : bool :=
  String.prefix k s ||
  match s with
  | EmptyString => false
  | String _ s' => infix k s'
  end.

(** [k in x] for a string [k]: key of a dict, substring of a string,
    element of a list; the other values are not containers. *)
Definition contains (k : string) (x : json) : py bool :=
  match x with
  | JObj kv =>
      ok (match lookup k kv with Some _ => true | None => false end)
  | JStr s => ok (infix k s)
  | JList l =>
      ok (existsb (fun e => match e with
                            | JStr s => String.eqb s k
                            | _ => false
                            end) l)
  | _ => raise TypeError
  end.

(** Truth value of [x] in [if x] and [not x]. *)
Definition truthy (x : json) : bool :=
  match x with
  | JNull => false
  | JBool b => b
  | JNum n => negb (n =? 0)%Z
  | JStr s => negb (String.eqb s "")
  | JList l => match l with [] => false | _ :: _ => true end
  | JObj kv => match kv with [] => false | _ :: _ => true end
  end.

(** [for e in x]: the elements of a list, the keys of a dict, the
    characters of a string. *)
Definition iter (x : json) : py (list json) :=
  match x with
  | JList l => ok l
  | JObj kv => ok (map (fun p => JStr (fst p)) kv)
  | JStr s => ok (map (fun c => JStr (String c "")) (list_ascii_of_string s))
  | _ => raise TypeError
  end.

(** [x == s] for a string literal [s]. *)
Definition eq_str (x : json) (s : string) : bool :=
  match x with
  | JStr t => String.eqb t s
  | _ => false
  end.

(** [f(x) for x in l], stopping at the first exception. *)
Fixpoint traverse {A B : Type} (f : A -> py B) (l : list A) : py (list B) :=
  match l with
  | [] => ok []
  | x :: rest =>
      bind (f x) (fun y => bind (traverse f rest) (fun ys => ok (y :: ys)))
  end.

(** [[x for x in l if not p(x)]], stopping at the first exception. *)
Fixpoint reject (p : json -> py bool) (l : list json) : py (list json) :=
  match l with
  | [] => ok []
  | x :: rest =>
      bind (p x) (fun b =>
      bind (reject p rest) (fun xs => ok (if b then xs else x :: xs)))
  end.

(** Decimal rendering of an integer, as an f-string does. *)
Definition dec (n : Z) : string := NilZero.string_of_int (Z.to_int n).

(** First occurrence of the (non-empty) separator: the text before it
    and the text after it. *)
Fixpoint cut (sep s : string) : option (string * string) :=
  if String.prefix sep s
  then Some ("", substring (length sep) (length s - length sep) s)
  else match s with
       | EmptyString => None
       | String c s' =>
           match cut sep s' with
           | Some (a, b) => Some (String c a, b)
           | None => None
           end
       end.

Fixpoint split_upto (n : nat) (sep s : string) : list string :=
  match n with
  | O => [s]
  | S n' =>
      match cut sep s with
      | None => [s]
      | Some (a, b) => a :: split_upto n' sep b
      end
  end.

(** [s.split(sep)] for a non-empty [sep]: every cut consumes a
    character, so [length s] cuts are enough. *)
Definition split (sep s : string) : list string :=
  split_upto (length s) sep s.

(** [l[i]] on a list of strings. *)
Definition item (l : list string) (i : nat) : py string :=
  match nth_error l i with
  | Some x => ok x
  | None => raise IndexError
  end.

Definition is_digit (c : ascii) : bool :=
  (48 <=? nat_of_ascii c)%nat && (nat_of_ascii c <=? 57)%nat.

Definition is_space (c : ascii) : bool :=
  let n := nat_of_ascii c in
  ((9 <=? n) && (n <=? 13) || (28 <=? n) && (n <=? 32))%nat.

Fixpoint lstrip (s : list ascii) : list ascii :=
  match s with
  | c :: s' => if is_space c then lstrip s' else s
  | [] => []
  end.

(** Digits, with single underscores allowed between two digits. *)
Fixpoint digits (acc : Z) (after_digit : bool) (s : list ascii) : option Z :=
  match s with
  | [] => if after_digit then Some acc else None
  | c :: s' =>
      if is_digit c
      then digits (10 * acc + Z.of_nat (nat_of_ascii c - 48)) true s'
      else if Ascii.eqb c "_" && after_digit then digits acc false s'
      else None
  end.

(** [int(s)] on an ASCII string; [None] is [ValueError]. *)
Definition int (s : string) : option Z :=
  let t := lstrip (rev (lstrip (rev (list_ascii_of_string s)))) in
  match t with
  | c :: r =>
      if Ascii.eqb c "-" then option_map Z.opp (digits 0 false r)
      else if Ascii.eqb c "+" then digits 0 false r
      else digits 0 false t
  | [] => None
  end.

End Py.

Declare Scope py_scope.
Delimit Scope py_scope with py.
Notation "x <- m ;; k" := (Py.bind m (fun x => k))
  (at level 61, m at next level, right associativity) : py_scope.

(** ** The world outside the process *)

(** What the scraper reads of an HTTP response: the status, the
    [X-RateLimit-Reset] header when present, and the decoded body
    ([None] when [resp.json()] raises). *)
Record response : Type := {
  status : Z;
  rate_limit_reset : option string;
  payload : option json
}.

(** [Failure]: [session.get] raises (transport failure, bad URL). *)
Inductive reply : Type :=
| Failure
| Response (r : response).

Inductive event : Type :=
| Request (url : string)          (* session.get(url) *)
| Sleep (secs : Z)                (* asyncio.sleep(secs) *)
| Log (url : json).               (* print("ERROR:", url, e) *)

(** The remote API answers a request from the history so far and the
    URL; every request carries the headers of [github_headers()], which
    are the server's to read.  [loop_time] is [int(asyncio.get_event_loop().time())], the
    event loop's monotonic clock; [unix_time] is the wall clock in
    seconds since the epoch, the one [X-RateLimit-Reset] is expressed
    in.  [trace] lists the effects in the order they happened. *)
Record world : Type := {
  server : list event -> string -> reply;
  loop_time : Z;
  unix_time : Z;
  trace : list event
}.

Definition emit (e : event) (w : world) : world :=
  {| server := server w;
     loop_time := loop_time w;
     unix_time := unix_time w;
     trace := (trace w ++ [e])%list |}.

(** Sleeping advances both clocks. *)
Definition sleep (secs : Z) (w : world) : world :=
  {| server := server w;
     loop_time := (loop_time w + secs)%Z;
     unix_time := (unix_time w + secs)%Z;
     trace := (trace w ++ [Sleep secs])%list |}.

(** ** Coroutines *)

(** A run of a coroutine from a world: it returns, an exception
    propagates out of it, or it is still running when the bound on
    retries and pages is used up. *)
Inductive run (A : Type) : Type :=
| Ret (a : A) (w : world)
| Exc (e : exn) (w : world)
| Hang.

Arguments Ret {A} a w.
Arguments Exc {A} e w.
Arguments Hang {A}.

Definition M (A : Type) : Type := world -> run A.

Definition ret {A : Type} (a : A) : M A := fun w => Ret a w.

Definition bind {A B : Type} (m : M A) (k : A -> M B) : M B :=
  fun w =>
    match m w with
    | Ret a w' => k a w'
    | Exc e w' => Exc e w'
    | Hang => Hang
    end.

(** A pure expression evaluated inside a coroutine. *)
Definition eval {A : Type} (x : py A) : M A :=
  fun w =>
    match x with
    | inr a => Ret a w
    | inl e => Exc e w
    end.

Declare Scope coro_scope.
Delimit Scope coro_scope with coro.
Notation "x <- m ;; k" := (bind m (fun x => k))
  (at level 61, m at next level, right associativity) : coro_scope.

Definition GITHUB : string := "https://api.github.com".

(** [fetch_json]'s [except] branch: log, return [{}]. *)
Definition failed (url : json) (w : world) : run json :=
  Ret (JObj []) (emit (Log url) w).

(** Lines 30-31: [resp.raise_for_status()] raises from status 400 on,
    [resp.json()] when the body does not decode. *)
Definition body_of (url : json) (resp : response) (w : world) : run json :=
  if (400 <=? status resp)%Z then failed url w
  else match payload resp with
       | Some data => Ret data w
       | None => failed url w
       end.

(** [fetch_json(session, url)].  [fuel] bounds the number of attempts;
    a URL that is not a string is refused by [session.get] inside the
    [try].  The interpreter's recursion limit, which ends a chain of
    about a thousand nested retries with [RecursionError]s caught by
    the [try]s on the way, is not part of the model: such a run is
    [Hang] here. *)
Fixpoint fetch_json (fuel : nat) (url : json) (w : world) : run json :=
  match fuel with
  | O => Hang
  | S fuel' =>
      match url with
      | JStr u =>
          let w1 := emit (Request u) w in
          match server w (trace w) u with
          | Failure => failed url w1
          | Response resp =>
              if (status resp =? 403)%Z then
                match rate_limit_reset resp with
                | Some reset =>
                    if negb (String.eqb reset "") then
                      let now := loop_time w1 in
                      match Py.int reset with
                      | Some r =>
                          let wait := (r - now)%Z in
                          fetch_json fuel' url (sleep (Z.max wait 2) w1)
                      | None => failed url w1
                      end
                    else body_of url resp w1
                | None => body_of url resp w1
                end
              else body_of url resp w1
          end
      | _ => failed url w
      end
  end.

(** ** The pagination walker *)

Definition page_url (scrapLink : string) (page : Z) : string :=
  scrapLink ++ "?state=closed&per_page=100&page=" ++ Py.dec page.

(** The [while] loop of [fetch_closed_issues], entered with the current
    [page] and [all_issues]; [rounds] bounds its iterations. *)
Fixpoint closed_issues_loop (rounds fuel : nat) (scrapLink : string)
    (page : Z) (all_issues : list json) : M (list json) :=
  if (List.length all_issues <? 150)%nat then
    match rounds with
    | O => fun _ => Hang
    | S rounds' =>
        (issues <- fetch_json fuel (JStr (page_url scrapLink page)) ;;
         match issues with
         | JList ((_ :: _) as l) =>
             filtered <- eval (Py.reject (Py.contains "pull_request") l) ;;
             let all_issues := (all_issues ++ filtered)%list in
             if (List.length l <? 100)%nat then ret (firstn 150 all_issues)
             else closed_issues_loop rounds' fuel scrapLink (page + 1)
                    all_issues
         | _ => ret (firstn 150 all_issues)
         end)%coro
    end
  else ret (firstn 150 all_issues).

Definition fetch_closed_issues (fuel : nat) (scrapLink : string)
    : M (list json) :=
  closed_issues_loop fuel fuel scrapLink 1 [].

(** ** The enricher *)

(** The [for] loop of [fetch_closing_sha]. *)
Fixpoint closing_scan (events : list json) : py json :=
  match events with
  | [] => Py.ok JNull
  | e :: rest =>
      (kind <- Py.get e "event" JNull ;;
       if Py.eq_str kind "closed" then
         commit_id <- Py.get e "commit_id" JNull ;;
         if Py.truthy commit_id then Py.subscript e "commit_id"
         else closing_scan rest
       else closing_scan rest)%py
  end.

Definition fetch_closing_sha (fuel : nat) (events_url : json) : M json :=
  (events <- fetch_json fuel events_url ;;
   match events with
   | JList l => eval (closing_scan l)
   | _ => ret JNull
   end)%coro.

(** One round of the [for] loop of [fetch_commit_diff]. *)
Definition diff_entry (f : json) : py json :=
  (path <- Py.get f "filename" JNull ;;
   diff <- Py.get f "patch" (JStr "") ;;
   Py.ok (JObj [("path", path); ("diff", diff)]))%py.

Definition fetch_comments (fuel : nat) (url : json) : M json :=
  (data <- fetch_json fuel url ;;
   ret (match data with
        | JList l => JList l
        | _ => JList []
        end))%coro.

(** [scrapLink.split("repos/")[1].split("/issues")[0]] *)
Definition repo_of (scrapLink : string) : py string :=
  (rest <- Py.item (Py.split "repos/" scrapLink) 1 ;;
   Py.item (Py.split "/issues" rest) 0)%py.

(** The dict that [process_issue] returns (lines 116-134), its values
    evaluated in the order they are written. *)
Definition enriched (issue comments : json) (diffs : list json)
    (repo : string) : py json :=
  (issue_id <- Py.get issue "number" JNull ;;
   title <- Py.get issue "title" (JStr "") ;;
   body <- Py.get issue "body" (JStr "") ;;
   state <- Py.get issue "state" JNull ;;
   created_at <- Py.get issue "created_at" JNull ;;
   updated_at <- Py.get issue "updated_at" JNull ;;
   closed_at <- Py.get issue "closed_at" JNull ;;
   ls <- Py.get issue "labels" (JList []) ;;
   ls <- Py.iter ls ;;
   labels <- Py.traverse (fun l => Py.get l "name" JNull) ls ;;
   user <- Py.get issue "user" (JObj []) ;;
   author <- Py.get user "login" JNull ;;
   cond <- Py.get issue "assignee" JNull ;;
   assignee <- (if Py.truthy cond
                then a <- Py.get issue "assignee" (JObj []) ;;
                     Py.get a "login" JNull
                else Py.ok JNull) ;;
   comments_count <- Py.get issue "comments" (JNum 0) ;;
   events_url <- Py.get issue "events_url" JNull ;;
   comments_url <- Py.get issue "comments_url" JNull ;;
   html_url <- Py.get issue "html_url" JNull ;;
   Py.ok (JObj [
    ("issue_id", issue_id);
    ("title", title);
    ("body", body);
    ("state", state);
    ("created_at", created_at);
    ("updated_at", updated_at);
    ("closed_at", closed_at);
    ("labels", JList labels);
    ("author", author);
    ("assignee", assignee);
    ("comments_count", comments_count);
    ("comments", comments);
    ("code_diff", JList diffs);
    ("events_url", events_url);
    ("comments_url", comments_url);
    ("html_url", html_url);
    ("repo", JStr repo)
  ]))%py.

(** The record [scrapIssues] returns when nothing was gathered. *)
Definition placeholder (repo : string) : json :=
  JObj [
    ("issue_id", JStr "no-data");
    ("title", JStr "No issues fetched");
    ("body", JStr "GitHub API returned zero issues.");
    ("comments", JList []);
    ("code_diff", JList []);
    ("repo", JStr repo)
  ].

(** [asyncio.gather] over [tasks]: the results in the order of
    [tasks], whatever the order of completion; the first exception
    propagates.  The event loop interleaves the tasks at their awaits;
    here each task runs to its end before the next one starts, so the
    requests of a run are listed task by task, and of several
    exceptions the one propagated is that of the first task in the
    list, where the loop propagates the first one in time.  Statements
    about [scrapIssues] are made where this choice does not matter:
    about the records returned, or against a [stateless] API where
    at most one task raises. *)
Fixpoint gather {A : Type} (tasks : list (M A)) : M (list A) :=
  match tasks with
  | [] => ret []
  | t :: rest =>
      (r <- t ;;
       rs <- gather rest ;;
       ret (r :: rs))%coro
  end.

Section Scraper.

(** Python's [repr] of a list or a dict, which an f-string applies to a
    [commit_id] of that shape. *)
Variable py_repr : json -> string.

(** [f"{x}"] *)
Definition format (x : json) : string :=
  match x with
  | JStr s => s
  | JNum n => Py.dec n
  | JBool true => "True"
  | JBool false => "False"
  | JNull => "None"
  | _ => py_repr x
  end.

Definition commit_url (repo : string) (sha : json) : string :=
  GITHUB ++ "/repos/" ++ repo ++ "/commits/" ++ format sha.

Definition fetch_commit_diff (fuel : nat) (repo : string) (sha : json)
    : M (list json) :=
  if negb (Py.truthy sha) then ret []
  else
    (data <- fetch_json fuel (JStr (commit_url repo sha)) ;;
     files <- eval (files <- Py.get data "files" (JList []) ;;
                    Py.iter files)%py ;;
     eval (Py.traverse diff_entry files))%coro.

(** [process_issue(session, issue, scrapLink)].  The two tasks created
    at lines 104-110 start in creation order, and the commit fetch is
    called once the SHA is known: the lookups are run here in the order
    in which they send their first request, events, comments, commit,
    each to its end.  An exception ends the run where it is raised;
    what a task still pending does afterwards is left out. *)
Definition process_issue (fuel : nat) (issue : json) (scrapLink : string)
    : M json :=
  (issue_id <- eval (Py.subscript issue "number") ;;
   repo <- eval (repo_of scrapLink) ;;
   events_url <- eval (Py.subscript issue "events_url") ;;
   comments_url <- eval (Py.subscript issue "comments_url") ;;
   closing_sha <- fetch_closing_sha fuel events_url ;;
   comments <- fetch_comments fuel comments_url ;;
   diffs <- fetch_commit_diff fuel repo closing_sha ;;
   eval (enriched issue comments diffs repo))%coro.

Definition scrapIssues (fuel : nat) (scrapLink : string) : M (list json) :=
  (issues <- fetch_closed_issues fuel scrapLink ;;
   let tasks :=
     map (fun issue => process_issue fuel issue scrapLink) issues in
   results <- gather tasks ;;
   match results with
   | [] =>
       repo <- eval (repo_of scrapLink) ;;
       ret [placeholder repo]
   | _ :: _ => ret results
   end)%coro.

End Scraper.

(** ** What the statements below talk about *)

Definition is_object (x : json) : bool :=
  match x with
  | JObj _ => true
  | _ => false
  end.

Definition has_key (k : string) (x : json) : bool :=
  match x with
  | JObj kv => match Py.lookup k kv with Some _ => true | None => false end
  | _ => false
  end.

(** Value of field [k] of a record, [JNull] when it has none. *)
Definition field (k : string) (x : json) : json :=
  match x with
  | JObj kv => match Py.lookup k kv with Some v => v | None => JNull end
  | _ => JNull
  end.

Definition keys (x : json) : list string :=
  match x with
  | JObj kv => map fst kv
  | _ => []
  end.

(** URLs requested so far, oldest first. *)
Definition requests (w : world) : list string :=
  flat_map (fun e => match e with Request u => [u] | _ => [] end) (trace w).

(** Durations slept so far, oldest first. *)
Definition sleeps (w : world) : list Z :=
  flat_map (fun e => match e with Sleep d => [d] | _ => [] end) (trace w).

(** A 403 that carries a non-empty [X-RateLimit-Reset]. *)
Definition rate_limited (resp : response) : bool :=
  (status resp =? 403)%Z &&
  match rate_limit_reset resp with
  | Some reset => negb (String.eqb reset "")
  | None => false
  end.

(** An event of kind "closed" that carries a commit id. *)
Definition closing (e : json) : bool :=
  Py.eq_str (field "event" e) "closed" && Py.truthy (field "commit_id" e).

(** The items of a page, none when the page is not a list. *)
Definition entries (page : json) : list json :=
  match page with
  | JList l => l
  | _ => []
  end.

(** The entries of a page that carry no [pull_request] key. *)
Definition issues_of (page : json) : list json :=
  filter (fun e => negb (has_key "pull_request" e)) (entries page).

Definition accumulated (pages : list json) : list json :=
  List.concat (map issues_of pages).

(** The walker stops after [page], reached with [acc] accumulated:
    (b) not a list or empty, (c) fewer than 100 raw entries,
    (a) 150 or more accumulated once the page is added. *)
Definition last_page (acc : list json) (page : json) : bool :=
  match page with
  | JList (_ :: _) => false
  | _ => true
  end
  || (List.length (entries page) <? 100)%nat
  || (150 <=? List.length (acc ++ issues_of page)%list)%nat.

(** Every entry of a page that is a list is an object. *)
Definition page_of_records (page : json) : bool :=
  forallb is_object (entries page).

(** The pages the fetcher returns to [k] successive page requests,
    the first one for page number [first]. *)
Fixpoint fetch_pages (fuel : nat) (scrapLink : string) (first : Z) (k : nat)
    : M (list json) :=
  match k with
  | O => ret []
  | S k' =>
      (p <- fetch_json fuel (JStr (page_url scrapLink first)) ;;
       ps <- fetch_pages fuel scrapLink (first + 1) k' ;;
       ret (p :: ps))%coro
  end.

(** A raw issue that [process_issue] reads without raising: the three
    subscripted keys are there, [labels] is a list of objects, [user] an
    object, and [assignee] an object unless it is falsy. *)
Definition well_formed (issue : json) : bool :=
  match issue with
  | JObj kv =>
      has_key "number" issue && has_key "events_url" issue &&
      has_key "comments_url" issue &&
      match Py.lookup "labels" kv with
      | None => true
      | Some (JList ls) => forallb is_object ls
      | Some _ => false
      end &&
      match Py.lookup "user" kv with
      | None => true
      | Some u => is_object u
      end &&
      match Py.lookup "assignee" kv with
      | None => true
      | Some a => negb (Py.truthy a) || is_object a
      end
  | _ => false
  end.

(** An API whose reply to a request depends on the URL alone: the
    upstream data does not change while the harvest runs. *)
Definition stateless (w : world) : Prop :=
  forall h1 h2 u, server w h1 u = server w h2 u.

(** Two runs end alike: with the same value, with the same exception,
    or not at all. *)
Definition agree {A : Type} (r1 r2 : run A) : Prop :=
  match r1, r2 with
  | Ret a _, Ret b _ => a = b
  | Exc e _, Exc e' _ => e = e'
  | Hang, Hang => True
  | _, _ => False
  end.

(** A run from [w] leaves the API as it was. *)
Definition same_server {A : Type} (w : world) (r : run A) : Prop :=
  match r with
  | Ret _ w' | Exc _ w' => server w' = server w
  | Hang => True
  end.

(** A coroutine that leaves the API alone and, against a stateless
    API, ends alike from any two worlds: neither the requests made
    before nor the clocks matter to its outcome. *)
Definition steady {A : Type} (m : M A) : Prop :=
  (forall w, same_server w (m w)) /\
  (forall w1 w2,
      stateless w1 -> server w2 = server w1 -> agree (m w1) (m w2)).

(** [sep] is written in [s] between [pre] and [after], and starts
    nowhere earlier in [s]: the place of the first cut of a split. *)
Definition first_cut (sep s pre after : string) : Prop :=
  s = pre ++ sep ++ after /\
  forall a b,
    s = a ++ sep ++ b -> (String.length pre <= String.length a)%nat.

(** [x] is the first of the pieces that [sep] separates [s] into: all
    of [s] when [sep] does not occur in it. *)
Definition first_piece (sep s x : string) : Prop :=
  (x = s /\ Py.infix sep s = false) \/
  exists after, first_cut sep s x after.

(** ** Sample data *)

Definition sample_link : string :=
  "https://api.github.com/repos/octo/demo/issues".

Definition sample_issue (n : Z) : json :=
  JObj [
    ("number", JNum n);
    ("title", JStr "Crash on start");
    ("state", JStr "closed");
    ("labels", JList [JObj [("name", JStr "bug")]; JObj [("color", JStr "red")]]);
    ("user", JObj [("login", JStr "alice")]);
    ("comments", JNum 1);
    ("events_url", JStr (sample_link ++ "/" ++ Py.dec n ++ "/events"));
    ("comments_url", JStr (sample_link ++ "/" ++ Py.dec n ++ "/comments"))
  ].

(** [count] issues numbered from [start]. *)
Definition sample_page (start : nat) (count : nat) : json :=
  JList (map (fun i => sample_issue (Z.of_nat i)) (seq start count)).

Definition found (data : json) : reply :=
  Response {| status := 200; rate_limit_reset := None; payload := Some data |}.

Definition not_found : reply :=
  Response {| status := 404; rate_limit_reset := None;
              payload := Some (JObj [("message", JStr "Not Found")]) |}.

(** An API that serves fixed documents and 404 for the rest. *)
Definition static_api (table : list (string * json))
    : list event -> string -> reply :=
  fun _ url =>
    match find (fun p => String.eqb (fst p) url) table with
    | Some p => found (snd p)
    | None => not_found
    end.

(** An API that throttles the first request until [reset]. *)
Definition throttled_api (reset : string) (data : json)
    : list event -> string -> reply :=
  fun history _ =>
    match history with
    | [] => Response {| status := 403; rate_limit_reset := Some reset;
                        payload := None |}
    | _ :: _ => found data
    end.

(** A process whose loop clock reads 1000 s at 1700000000 s Unix time. *)
Definition boot (api : list event -> string -> reply) : world :=
  {| server := api; loop_time := 1000; unix_time := 1700000000; trace := [] |}.

Definition unplugged : world := boot (fun _ _ => Failure).

(** The feed of Scenario C. *)
Definition reopened_feed : list json :=
  [ JObj [("event", JStr "labeled")];
    JObj [("event", JStr "closed"); ("commit_id", JStr "abc")];
    JObj [("event", JStr "reopened")];
    JObj [("event", JStr "closed"); ("commit_id", JStr "def")] ].

(** Pages 1 and 2 full, page 3 holding 30 issues (Scenario A). *)
Definition short_third_page : world :=
  boot (static_api [
    (page_url sample_link 1, JList (repeat (JObj [("pull_request", JObj [])]) 100));
    (page_url sample_link 2, sample_page 1 100);
    (page_url sample_link 3, sample_page 101 30) ]).

(** Three full pages of issues (Scenario B). *)
Definition three_full_pages : world :=
  boot (static_api [
    (page_url sample_link 1, sample_page 1 100);
    (page_url sample_link 2, sample_page 101 100);
    (page_url sample_link 3, sample_page 201 100) ]).

(** An issue closed by commit abc, whose commit the API does not know. *)
Definition lost_commit : world :=
  boot (static_api [
    (sample_link ++ "/7/events", JList reopened_feed);
    (sample_link ++ "/7/comments",
       JList [JObj [("user", JObj [("login", JStr "bob")]);
                    ("body", JStr "Fixed.")]]) ]).

(** An issue that was closed by hand. *)
Definition closed_by_hand : world :=
  boot (static_api [
    (sample_link ++ "/7/events",
       JList [JObj [("event", JStr "labeled")]; JObj [("event", JStr "closed")]]);
    (sample_link ++ "/7/comments", JList []) ]).

(** A repository without closed issues. *)
Definition no_issues : world :=
  boot (static_api [ (page_url sample_link 1, JList []) ]).

(** One page of three issues, with their events and comments. *)
Definition three_issues : world :=
  boot (static_api [
    (page_url sample_link 1, sample_page 1 3);
    (sample_link ++ "/1/events", JList reopened_feed);
    (sample_link ++ "/2/comments", JList [JObj [("body", JStr "Thanks")]]);
    (GITHUB ++ "/repos/octo/demo/commits/abc",
       JObj [("files", JList [JObj [("filename", JStr "a.py");
                                    ("patch", JStr "@@ -1 +1 @@")]])]) ]).

(** A rendering of containers for the sample runs, whose commit ids are
    strings. *)
Definition sample_repr : json -> string := fun _ => "[...]".

(** ** More sample data *)

(** An events feed with an entry that is not a record. *)
Definition garbled_feed : world :=
  boot (static_api [
    (sample_link ++ "/7/events",
       JList [JObj [("event", JStr "labeled")]; JStr "closed"]);
    (sample_link ++ "/7/comments", JList []) ]).

(** Commit abc changes two files, the second without a patch. *)
Definition commit_two_files : world :=
  boot (static_api [
    (GITHUB ++ "/repos/octo/demo/commits/abc",
       JObj [("sha", JStr "abc");
             ("files", JList [JObj [("filename", JStr "a.py");
                                    ("patch", JStr "@@ -1 +1 @@")];
                              JObj [("filename", JStr "logo.png")]])]) ]).

(** The commit endpoint answers with an array. *)
Definition commit_as_list : world :=
  boot (static_api [
    (GITHUB ++ "/repos/octo/demo/commits/abc", JList [JObj []]) ]).

(** ** More vocabulary *)

(** A value the [in] test of the walker accepts. *)
Definition is_container (x : json) : bool :=
  match x with
  | JObj _ | JStr _ | JList _ => true
  | _ => false
  end.

(** The requests of a walk that starts at page [first]: page after
    page, each requested once more than it was throttled. *)
Fixpoint page_requests (scrapLink : string) (first : Z) (throttled : list nat)
    : list string :=
  match throttled with
  | [] => []
  | n :: rest =>
      (repeat (page_url scrapLink first) (S n) ++
       page_requests scrapLink (first + 1) rest)%list
  end.

(** An API whose every page is the same full page of pull requests. *)
Definition endless_pull_requests : world :=
  boot (fun _ _ =>
    found (JList (repeat (JObj [("number", JNum 1);
                                ("pull_request", JObj [])]) 100))).

(** A first page with a [null] among its entries. *)
Definition null_entry : world :=
  boot (static_api [
    (page_url sample_link 1, JList [sample_issue 1; JNull]) ]).

(** Value of field [k] of a record, [default] when it has none. *)
Definition field_or (k : string) (default : json) (x : json) : json :=
  match x with
  | JObj kv =>
      match Py.lookup k kv with
      | Some v => v
      | None => default
      end
  | _ => default
  end.

(** An issue whose author's account is gone: [user] is [null]. *)
Definition ghost_issue (n : Z) : json :=
  JObj [
    ("number", JNum n);
    ("title", JStr "Typo in README");
    ("body", JNull);
    ("user", JNull);
    ("events_url", JStr (sample_link ++ "/" ++ Py.dec n ++ "/events"));
    ("comments_url", JStr (sample_link ++ "/" ++ Py.dec n ++ "/comments"))
  ].

(** A page of three issues, the second by a deleted account. *)
Definition second_issue_ghost : world :=
  boot (static_api [
    (page_url sample_link 1,
       JList [sample_issue 1; ghost_issue 2; sample_issue 3]) ]).

(** ** The connector *)

(** [GitHubIssueScraperSubject.run] of [githubConnector.py], the caller
    of [scrapIssues], and [github_headers]. *)

(** [github_headers()], with the value of the [GITHUB_PAT] variable of
    the environment ([None] when it is not set). *)
Definition github_headers (GITHUB_PAT : option string) : json :=
  let headers := [("Accept", JStr "application/vnd.github+json")] in
  match GITHUB_PAT with
  | Some pat =>
      if negb (String.eqb pat "")
      then JObj (headers ++ [("Authorization", JStr ("Bearer " ++ pat))])%list
      else JObj headers
  | None => JObj headers
  end.

Module Connector.

(** The keyword arguments of one call of [self.next]. *)
Record row : Type := {
  url : string;
  data : string;
  _metadata : json
}.

(** The rows handed to [self.next] by the [for] loop: all of them, or
    those that precede the exception that ends the loop. *)
Inductive emitted : Type :=
| Finished (rows : list row)
| Aborted (rows : list row) (e : exn).

(** The one-character string of a line feed. *)
Definition nl : string := String (ascii_of_nat 10) "".

(** [len(x)]: the items of a list or a dict, the characters of an
    ASCII string. *)
Definition len (x : json) : py json :=
  match x with
  | JList l => Py.ok (JNum (Z.of_nat (List.length l)))
  | JObj kv => Py.ok (JNum (Z.of_nat (List.length kv)))
  | JStr s => Py.ok (JNum (Z.of_nat (String.length s)))
  | _ => Py.raise TypeError
  end.

Section Subject.

Variable py_repr : json -> string.

(** One element of the generator joined into [comments_txt]. *)
Definition comment_line (c : json) : py string :=
  (user <- Py.get c "user" (JObj []) ;;
   login <- Py.get user "login" (JStr "unknown") ;;
   body <- Py.get c "body" (JStr "") ;;
   Py.ok ("[" ++ format py_repr login ++ "] " ++ format py_repr body))%py.

(** One element of the generator joined into [diff_txt]. *)
Definition diff_line (d : json) : py string :=
  (path <- Py.get d "path" (JStr "") ;;
   diff <- Py.get d "diff" (JStr "") ;;
   Py.ok ("--- " ++ format py_repr path ++ " ---" ++ nl ++
          format py_repr diff))%py.

(** The body of the [for] loop of [run] up to [self.next]. *)
Definition render (repo : string) (issue : json) : py row :=
  (issue_id <- Py.subscript issue "issue_id" ;;
   title <- Py.subscript issue "title" ;;
   body <- Py.subscript issue "body" ;;
   comments <- Py.subscript issue "comments" ;;
   diffs <- Py.subscript issue "code_diff" ;;
   cs <- Py.iter comments ;;
   comment_lines <- Py.traverse comment_line cs ;;
   let comments_txt := String.concat nl comment_lines in
   ds <- Py.iter diffs ;;
   diff_lines <- Py.traverse diff_line ds ;;
   let diff_txt := String.concat nl diff_lines in
   let final_text :=
     "Issue ID: " ++ format py_repr issue_id ++ nl ++
     "Title: " ++ format py_repr title ++ nl ++ nl ++
     format py_repr body ++ nl ++ nl ++
     "Comments:" ++ nl ++ comments_txt ++ nl ++ nl ++
     "Code Diff:" ++ nl ++ diff_txt in
   let url :=
     "https://github.com/" ++ repo ++ "/issues/" ++ format py_repr issue_id in
   total_comments <- len comments ;;
   total_files_changed <- len diffs ;;
   let metadata :=
     JObj [
       ("issue_id", issue_id);
       ("repo", JStr repo);
       ("title", title);
       ("body", body);
       ("comments", comments);
       ("code_diff", diffs);
       ("total_comments", total_comments);
       ("total_files_changed", total_files_changed)
     ] in
   Py.ok {| url := url; data := final_text; _metadata := metadata |})%py.

(** The [for] loop of [run] over the harvested records. *)
Fixpoint feed (repo : string) (records : list json) : emitted :=
  match records with
  | [] => Finished []
  | issue :: rest =>
      match render repo issue with
      | inl e => Aborted [] e
      | inr r =>
          match feed repo rest with
          | Finished rows => Finished (r :: rows)
          | Aborted rows e => Aborted (r :: rows) e
          end
      end
  end.

(** [run(self)] for a subject built on [scrap_link]: the harvest is run
    to its end, then the rows are emitted one by one.  An exception of
    the harvest or of the link's parsing propagates; one raised inside
    the loop is returned with the rows emitted before it. *)
Definition run (fuel : nat) (scrap_link : string) : M emitted :=
  (records <- scrapIssues py_repr fuel scrap_link ;;
   repo <- eval (repo_of scrap_link) ;;
   ret (feed repo records))%coro.

End Subject.

End Connector.

Definition is_list (x : json) : bool :=
  match x with
  | JList _ => true
  | _ => false
  end.

(** A comment is rendered without an exception: it is a record, and
    its [user], when present, is a record. *)
Definition renderable_comment (c : json) : bool :=
  match c with
  | JObj kv =>
      match Py.lookup "user" kv with
      | None => true
      | Some u => is_object u
      end
  | _ => false
  end.

(** Issue 7 closed by hand, discussed by an account since deleted. *)
Definition ghost_commenter : world :=
  boot (static_api [
    (page_url sample_link 1, JList [sample_issue 1; sample_issue 7]);
    (sample_link ++ "/7/comments",
       JList [JObj [("user", JNull); ("body", JStr "Same here.")]]) ]).

(** * Proofs *)

#[local] Arguments Nat.leb : simpl never.
#[local] Arguments Nat.ltb : simpl never.
#[local] Arguments firstn : simpl never.

(** ** The HTTP fetcher *)

Lemma body_of_returns (url : json) (resp : response) (w : world) :
  exists data w', body_of url resp w = Ret data w'.
Proof.
  unfold body_of, failed.
  destruct (400 <=? status resp)%Z; [eauto |].
  destruct (payload resp); eauto.
Qed.

(** No exception leaves [fetch_json]: the [try] catches them all. *)
Lemma fetch_json_no_exception (fuel : nat) :
  forall url w e w', fetch_json fuel url w <> Exc e w'.
Proof.
  induction fuel as [| fuel IH]; intros url w e w'; simpl; [discriminate |].
  destruct url; try (unfold failed; discriminate).
  assert (Hbody : forall resp w1, body_of (JStr s) resp w1 <> Exc e w').
  { intros resp w1. destruct (body_of_returns (JStr s) resp w1) as (d & w2 & ->).
    discriminate. }
  destruct (server w (trace w) s) as [| resp]; [unfold failed; discriminate |].
  destruct (status resp =? 403)%Z; [| apply Hbody].
  destruct (rate_limit_reset resp) as [reset |]; [| apply Hbody].
  destruct (negb (reset =? "")); [| apply Hbody].
  destruct (Py.int reset); [apply IH | unfold failed; discriminate].
Qed.

(** The rate-limit branch: one sleep, measured on the loop clock, and
    one more call on the same URL, whose result is returned. *)
Lemma fetch_json_retry (fuel : nat) (u reset : string) (r : Z)
    (resp : response) (w : world) :
  server w (trace w) u = Response resp ->
  status resp = 403%Z ->
  rate_limit_reset resp = Some reset ->
  reset <> "" ->
  Py.int reset = Some r ->
  fetch_json (S fuel) (JStr u) w =
  fetch_json fuel (JStr u)
    (sleep (Z.max (r - loop_time w) 2) (emit (Request u) w)).
Proof.
  intros Hs H403 Hreset Hne Hint. simpl.
  rewrite Hs, H403, Hreset, Hint. simpl.
  apply String.eqb_neq in Hne. rewrite Hne. reflexivity.
Qed.

(** A server that throttles every request keeps [fetch_json] retrying
    whatever the bound. *)
Lemma fetch_json_unbounded_retry (reset : string) (r : Z) (u : string) :
  reset <> "" ->
  Py.int reset = Some r ->
  forall fuel w,
    (forall h v, server w h v =
       Response {| status := 403; rate_limit_reset := Some reset;
                   payload := None |}) ->
    fetch_json fuel (JStr u) w = Hang.
Proof.
  intros Hne Hint. induction fuel as [| fuel IH]; intros w Hsrv; [reflexivity |].
  rewrite (fetch_json_retry fuel u reset r _ w (Hsrv (trace w) u)
             eq_refl eq_refl Hne Hint).
  apply IH. intros h v. exact (Hsrv h v).
Qed.

(** C6: an HTTP error that is not a rate-limited 403, and a transport
    failure, never reach the caller of [fetch_json] as an exception:
    the error is printed and the call returns the empty object. *)
Theorem fetch_json_swallows_errors :
  (forall fuel url w e w', fetch_json fuel url w <> Exc e w') /\
  (forall fuel u w,
     server w (trace w) u = Failure \/
     (exists resp, server w (trace w) u = Response resp /\
                   (400 <= status resp)%Z /\ rate_limited resp = false) ->
     fetch_json (S fuel) (JStr u) w =
     Ret (JObj []) (emit (Log (JStr u)) (emit (Request u) w))).
Proof.
  split; [intros fuel; apply fetch_json_no_exception |].
  intros fuel u w [Hfail | (resp & Hs & Hge & Hrl)]; simpl.
  - rewrite Hfail. reflexivity.
  - rewrite Hs. unfold rate_limited in Hrl.
    assert (Hbody : body_of (JStr u) resp (emit (Request u) w) =
                    Ret (JObj []) (emit (Log (JStr u)) (emit (Request u) w))).
    { unfold body_of. apply Z.leb_le in Hge. rewrite Hge. reflexivity. }
    destruct (status resp =? 403)%Z; [| exact Hbody].
    destruct (rate_limit_reset resp) as [reset |]; [| exact Hbody].
    simpl in Hrl. rewrite Hrl. exact Hbody.
Qed.

Lemma fetch_json_swallows_errors_witness :
  fetch_json 1 (JStr sample_link) unplugged =
    Ret (JObj []) (emit (Log (JStr sample_link))
                     (emit (Request sample_link) unplugged)) /\
  fetch_json 1 (JStr sample_link) (boot (static_api [])) =
    Ret (JObj []) (emit (Log (JStr sample_link))
                     (emit (Request sample_link) (boot (static_api [])))).
Proof.
  split.
  - apply (proj2 fetch_json_swallows_errors 0%nat sample_link unplugged).
    left. reflexivity.
  - apply (proj2 fetch_json_swallows_errors 0%nat sample_link
             (boot (static_api []))).
    right. eexists. split; [reflexivity |]. split; [simpl; lia | reflexivity].
Defined.

(** C3, at a process whose loop clock reads 1000 s while the Unix time
    is 1700000000 s and the server asks to wait until 1700000005: the
    call retries the same URL once and returns the retry's data, but it
    sleeps 1699999005 s, the reset time minus the loop clock, where the
    reset time minus the Unix time is 5 s. *)
Theorem fetch_json_backoff_on_loop_clock :
  let w := boot (throttled_api "1700000005" (JList [])) in
  exists w',
    fetch_json 2 (JStr sample_link) w = Ret (JList []) w' /\
    requests w' = [sample_link; sample_link] /\
    sleeps w' = [1699999005%Z] /\
    Z.max (1700000005 - unix_time w) 2 = 5%Z.
Proof.
  eexists. split; [vm_compute; reflexivity |].
  split; [reflexivity |]. split; reflexivity.
Qed.

(** ** The closing commit *)

Lemma closing_scan_skip (x : json) (rest : list json) :
  is_object x = true -> closing x = false ->
  closing_scan (x :: rest) = closing_scan rest.
Proof.
  destruct x; try discriminate. intros _ Hc.
  unfold closing, field in Hc. simpl. unfold Py.get.
  destruct (Py.lookup "event" kv) as [kind |]; simpl in *.
  - destruct (Py.eq_str kind "closed"); [| reflexivity].
    destruct (Py.lookup "commit_id" kv) as [c |]; simpl in *.
    + rewrite Hc. reflexivity.
    + reflexivity.
  - reflexivity.
Qed.

Lemma closing_scan_hit (e : json) (rest : list json) :
  closing e = true ->
  closing_scan (e :: rest) = Py.ok (field "commit_id" e).
Proof.
  unfold closing, field. destruct e; try discriminate. simpl.
  destruct (Py.lookup "event" kv) as [kind |]; simpl; [| discriminate].
  destruct (Py.eq_str kind "closed"); [| discriminate]. simpl.
  destruct (Py.lookup "commit_id" kv) as [c |]; simpl; [| discriminate].
  intros ->. reflexivity.
Qed.

Lemma closing_scan_first (pre : list json) (e : json) (post : list json) :
  Forall (fun x => is_object x = true /\ closing x = false) pre ->
  closing e = true ->
  closing_scan (pre ++ e :: post) = Py.ok (field "commit_id" e).
Proof.
  intros Hpre He. induction Hpre as [| x pre [Hobj Hx] _ IH]; simpl app.
  - apply closing_scan_hit, He.
  - rewrite closing_scan_skip by assumption. exact IH.
Qed.

Lemma closing_scan_none (events : list json) :
  Forall (fun x => is_object x = true /\ closing x = false) events ->
  closing_scan events = Py.ok JNull.
Proof.
  induction 1 as [| x events [Hobj Hx] _ IH]; [reflexivity |].
  rewrite closing_scan_skip by assumption. exact IH.
Qed.

(** C5: on a feed of event records, [fetch_closing_sha] returns the
    commit id of the first event, in feed order, that is of kind
    "closed" and carries a commit id; it returns [None] when the feed
    has no such event, and when the feed is not a list. *)
Theorem fetch_closing_sha_first_closed :
  forall fuel url w feed w1,
    fetch_json fuel url w = Ret feed w1 ->
    (forall pre e post,
        feed = JList (pre ++ e :: post) ->
        Forall (fun x => is_object x = true /\ closing x = false) pre ->
        closing e = true ->
        fetch_closing_sha fuel url w = Ret (field "commit_id" e) w1) /\
    (Forall (fun x => is_object x = true /\ closing x = false) (entries feed) ->
     fetch_closing_sha fuel url w = Ret JNull w1).
Proof.
  intros fuel url w feed w1 Hfetch. unfold fetch_closing_sha, bind.
  rewrite Hfetch. split.
  - intros pre e post -> Hpre He. unfold eval.
    rewrite (closing_scan_first pre e post Hpre He). reflexivity.
  - intros Hnone. destruct feed; try reflexivity.
    simpl in Hnone. unfold eval. rewrite (closing_scan_none l Hnone).
    reflexivity.
Qed.

(** Scenario C: labeled, closed by abc, reopened, closed by def. *)
Lemma fetch_closing_sha_first_closed_witness :
  exists w1,
    fetch_closing_sha 1 (JStr (sample_link ++ "/7/events")) lost_commit =
    Ret (JStr "abc") w1.
Proof.
  assert (Hfetch :
    fetch_json 1 (JStr (sample_link ++ "/7/events")) lost_commit =
    Ret (JList reopened_feed)
        (emit (Request (sample_link ++ "/7/events")) lost_commit))
    by reflexivity.
  eexists.
  apply (proj1 (fetch_closing_sha_first_closed 1 _ _ _ _ Hfetch)
           [JObj [("event", JStr "labeled")]]
           (JObj [("event", JStr "closed"); ("commit_id", JStr "abc")])
           [JObj [("event", JStr "reopened")];
            JObj [("event", JStr "closed"); ("commit_id", JStr "def")]]).
  - reflexivity.
  - repeat constructor.
  - reflexivity.
Defined.

(** ** The pagination walker *)

Lemma reject_records (l : list json) :
  forallb is_object l = true ->
  Py.reject (Py.contains "pull_request") l =
  Py.ok (filter (fun e => negb (has_key "pull_request" e)) l).
Proof.
  induction l as [| x l IH]; [reflexivity |].
  simpl. intros H. apply andb_prop in H as [Hx Hl].
  rewrite (IH Hl). destruct x; try discriminate. simpl.
  destruct (Py.lookup "pull_request" kv); reflexivity.
Qed.

Lemma accumulated_cons (p : json) (ps : list json) :
  accumulated (p :: ps) = (issues_of p ++ accumulated ps)%list.
Proof. reflexivity. Qed.

Lemma accumulated_snoc (ps : list json) (p : json) :
  accumulated (ps ++ [p]) = (accumulated ps ++ issues_of p)%list.
Proof.
  unfold accumulated. rewrite map_app, concat_app. simpl.
  rewrite app_nil_r. reflexivity.
Qed.

Lemma last_page_cons (acc : list json) (x : json) (l : list json) :
  last_page acc (JList (x :: l)) =
  (List.length (x :: l) <? 100)%nat
  || (150 <=? List.length (acc ++ issues_of (JList (x :: l)))%list)%nat.
Proof. reflexivity. Qed.

(** With 150 issues or more in hand the loop is over. *)
Lemma closed_issues_loop_full (rounds fuel : nat) (scrapLink : string)
    (page : Z) (acc : list json) (w : world) :
  (150 <= List.length acc)%nat ->
  closed_issues_loop rounds fuel scrapLink page acc w = Ret (firstn 150 acc) w.
Proof.
  intros Hacc. apply Nat.ltb_ge in Hacc.
  destruct rounds; cbn [closed_issues_loop]; rewrite Hacc; reflexivity.
Qed.

(** One round of the loop on a page after which the walker goes on. *)
Lemma closed_issues_loop_step (rounds fuel : nat) (scrapLink : string)
    (page : Z) (acc : list json) (p : json) (w w1 : world) :
  (List.length acc < 150)%nat ->
  fetch_json fuel (JStr (page_url scrapLink page)) w = Ret p w1 ->
  page_of_records p = true ->
  last_page acc p = false ->
  closed_issues_loop (S rounds) fuel scrapLink page acc w =
  closed_issues_loop rounds fuel scrapLink (page + 1)
    (acc ++ issues_of p)%list w1.
Proof.
  intros Hacc Hfetch Hrec Hlast. cbn [closed_issues_loop].
  apply Nat.ltb_lt in Hacc. rewrite Hacc. unfold bind at 1. rewrite Hfetch.
  destruct p as [| | | | l |]; try discriminate.
  destruct l as [| x l]; [discriminate |].
  rewrite last_page_cons in Hlast.
  apply orb_false_elim in Hlast as [Hc _].
  unfold bind, eval. rewrite (reject_records (x :: l) Hrec). unfold Py.ok.
  rewrite Hc. reflexivity.
Qed.

(** The round on the page after which the walker stops. *)
Lemma closed_issues_loop_last (rounds fuel : nat) (scrapLink : string)
    (page : Z) (acc : list json) (p : json) (w w1 : world) :
  (List.length acc < 150)%nat ->
  fetch_json fuel (JStr (page_url scrapLink page)) w = Ret p w1 ->
  page_of_records p = true ->
  last_page acc p = true ->
  closed_issues_loop (S rounds) fuel scrapLink page acc w =
  Ret (firstn 150 (acc ++ issues_of p)%list) w1.
Proof.
  intros Hacc Hfetch Hrec Hlast. cbn [closed_issues_loop].
  apply Nat.ltb_lt in Hacc. rewrite Hacc. unfold bind at 1. rewrite Hfetch.
  destruct p as [| | | | l |];
    try (cbn [issues_of entries filter]; rewrite app_nil_r; reflexivity).
  destruct l as [| x l];
    [cbn [issues_of entries filter]; rewrite app_nil_r; reflexivity |].
  rewrite last_page_cons in Hlast.
  unfold bind, eval. rewrite (reject_records (x :: l) Hrec). unfold Py.ok.
  destruct (List.length (x :: l) <? 100)%nat; [reflexivity |].
  cbn [orb] in Hlast. apply Nat.leb_le in Hlast.
  apply closed_issues_loop_full. exact Hlast.
Qed.

Lemma fetch_pages_cons (fuel : nat) (scrapLink : string) (first : Z)
    (k : nat) (w w' : world) (p : json) (ps : list json) :
  fetch_pages fuel scrapLink first (S k) w = Ret (p :: ps) w' ->
  exists w1,
    fetch_json fuel (JStr (page_url scrapLink first)) w = Ret p w1 /\
    fetch_pages fuel scrapLink (first + 1) k w1 = Ret ps w'.
Proof.
  cbn [fetch_pages]. unfold bind at 1.
  destruct (fetch_json fuel (JStr (page_url scrapLink first)) w)
    as [p0 w1 | e w1 |]; try discriminate.
  unfold bind, ret.
  destruct (fetch_pages fuel scrapLink (first + 1) k w1)
    as [ps0 w2 | e w2 |] eqn:Hrest; try discriminate.
  intros H. injection H as Hp Hps Hw. subst p0 ps0 w2.
  exists w1. split; [reflexivity | exact Hrest].
Qed.

(** The loop over a run of pages: the walker goes on after each of
    [pages] and stops after [last]. *)
Lemma closed_issues_loop_walk (fuel : nat) (scrapLink : string)
    (last : json) (w' : world) :
  forall pages rounds page acc w,
    fetch_pages fuel scrapLink page (S (List.length pages)) w =
      Ret (pages ++ [last])%list w' ->
    (List.length pages < rounds)%nat ->
    Forall (fun p => page_of_records p = true) (pages ++ [last])%list ->
    (List.length acc < 150)%nat ->
    (forall pre p post,
        pages = (pre ++ p :: post)%list ->
        last_page (acc ++ accumulated pre)%list p = false) ->
    last_page (acc ++ accumulated pages)%list last = true ->
    closed_issues_loop rounds fuel scrapLink page acc w =
    Ret (firstn 150 (acc ++ accumulated (pages ++ [last]))%list) w'.
Proof.
  induction pages as [| p pages IH]; intros rounds page acc w Hfetch Hr Hrec
    Hacc Hgo Hstop.
  - apply fetch_pages_cons in Hfetch as (w1 & Hp & Hrest).
    cbn [fetch_pages] in Hrest. injection Hrest as <-.
    destruct rounds as [| rounds]; [inversion Hr |].
    cbn [accumulated map List.concat app] in *. rewrite app_nil_r in *.
    apply closed_issues_loop_last; try assumption.
    apply Forall_inv in Hrec. exact Hrec.
  - cbn [app List.length] in Hfetch.
    apply fetch_pages_cons in Hfetch as (w1 & Hp & Hrest).
    destruct rounds as [| rounds]; [inversion Hr |].
    cbn [List.length] in Hr. apply Nat.succ_lt_mono in Hr.
    cbn [app] in Hrec. pose proof (Forall_inv Hrec) as Hrecp.
    apply Forall_inv_tail in Hrec.
    pose proof (Hgo [] p pages eq_refl) as Hgop.
    cbn [accumulated map List.concat] in Hgop. rewrite app_nil_r in Hgop.
    rewrite (closed_issues_loop_step rounds fuel scrapLink page acc p w w1)
      by assumption.
    cbn [app]. rewrite accumulated_cons, app_assoc.
    apply IH; try assumption.
    + unfold last_page in Hgop.
      apply orb_false_elim in Hgop as [_ Ha]. apply Nat.leb_gt in Ha.
      exact Ha.
    + intros pre q post ->. rewrite <- app_assoc, <- accumulated_cons.
      apply (Hgo (p :: pre) q post). reflexivity.
    + rewrite <- app_assoc, <- accumulated_cons. exact Hstop.
Qed.

(** What the walker holds before the last page is below the target. *)
Lemma accumulated_below_target (pages : list json) :
  (forall pre p post,
      pages = (pre ++ p :: post)%list ->
      last_page (accumulated pre) p = false) ->
  (List.length (accumulated pages) < 150)%nat.
Proof.
  intros Hgo. destruct pages as [| p0 pages] using rev_ind.
  - cbn. lia.
  - specialize (Hgo pages p0 [] eq_refl). unfold last_page in Hgo.
    apply orb_false_elim in Hgo as [_ Ha]. apply Nat.leb_gt in Ha.
    rewrite accumulated_snoc. exact Ha.
Qed.

(** C1: let the fetcher return [pages] and then [last] to the requests
    for page=1, 2, ... with state=closed&per_page=100, every entry a
    record.  If the walker's stop test, (a) 150 accumulated, (b) not a
    list or empty, (c) fewer than 100 raw entries, fails after each of
    [pages] and holds after [last], then [fetch_closed_issues] requests
    exactly these pages and returns the entries without a
    [pull_request] key, those of [last] cut so that at most 150 are
    returned. *)
Theorem fetch_closed_issues_walk :
  forall fuel scrapLink w pages last w',
    fetch_pages fuel scrapLink 1 (S (List.length pages)) w =
      Ret (pages ++ [last])%list w' ->
    Forall (fun p => page_of_records p = true) (pages ++ [last])%list ->
    (List.length pages < fuel)%nat ->
    (forall pre p post,
        pages = (pre ++ p :: post)%list ->
        last_page (accumulated pre) p = false) ->
    last_page (accumulated pages) last = true ->
    page_url scrapLink 1 = scrapLink ++ "?state=closed&per_page=100&page=1" /\
    exists issues,
      fetch_closed_issues fuel scrapLink w = Ret issues w' /\
      issues = (accumulated pages ++
                firstn (150 - List.length (accumulated pages))
                  (issues_of last))%list /\
      (List.length issues <= 150)%nat.
Proof.
  intros fuel scrapLink w pages last w' Hfetch Hrec Hfuel Hgo Hstop.
  split; [reflexivity |].
  pose proof (accumulated_below_target pages Hgo) as Hlt.
  exists (firstn 150 (accumulated (pages ++ [last]))).
  split; [| split].
  - unfold fetch_closed_issues.
    apply (closed_issues_loop_walk fuel scrapLink last w' pages fuel 1 [] w);
      try assumption.
    cbn. lia.
  - rewrite accumulated_snoc, firstn_app.
    rewrite firstn_all2 by lia. reflexivity.
  - apply firstn_le_length.
Qed.

(** C2, as the code has it: when the first two pages hold 100 issues
    each, none of them a pull request, [fetch_closed_issues] stops
    after the second page: it returns the 100 issues of the first page
    and the first 50 of the second, 150 in all, in the world the second
    fetch leaves, without a request for a third page. *)
Theorem fetch_closed_issues_two_full_pages :
  forall fuel scrapLink w p1 w1 p2 w2,
    fetch_json fuel (JStr (page_url scrapLink 1)) w = Ret (JList p1) w1 ->
    fetch_json fuel (JStr (page_url scrapLink 2)) w1 = Ret (JList p2) w2 ->
    List.length p1 = 100%nat ->
    List.length p2 = 100%nat ->
    Forall (fun e => is_object e = true /\ has_key "pull_request" e = false)
      (p1 ++ p2)%list ->
    (2 <= fuel)%nat ->
    fetch_closed_issues fuel scrapLink w = Ret (p1 ++ firstn 50 p2)%list w2 /\
    List.length (p1 ++ firstn 50 p2)%list = 150%nat.
Proof.
  intros fuel scrapLink w p1 w1 p2 w2 H1 H2 L1 L2 Hrec Hfuel.
  assert (Hkeep : forall l,
    Forall (fun e => is_object e = true /\ has_key "pull_request" e = false) l ->
    issues_of (JList l) = l /\ page_of_records (JList l) = true).
  { induction 1 as [| x l [Hobj Hkey] _ [IHi IHr]]; [split; reflexivity |].
    unfold issues_of, page_of_records in *. cbn [entries filter forallb] in *.
    rewrite Hkey, Hobj, IHi, IHr. split; reflexivity. }
  apply Forall_app in Hrec as [Hr1 Hr2].
  destruct (Hkeep p1 Hr1) as [Hi1 Hrec1], (Hkeep p2 Hr2) as [Hi2 Hrec2].
  split.
  - destruct fuel as [| [| fuel]]; try lia.
    unfold fetch_closed_issues.
    rewrite (closed_issues_loop_step (S fuel) (S (S fuel)) scrapLink 1 []
               (JList p1) w w1); try assumption.
    + rewrite (closed_issues_loop_last fuel (S (S fuel)) scrapLink (1 + 1)
                 ([] ++ issues_of (JList p1)) (JList p2) w1 w2);
        try assumption.
      * rewrite Hi1, Hi2. cbn [app]. rewrite firstn_app, L1.
        rewrite firstn_all2 by lia. reflexivity.
      * rewrite Hi1. cbn [app]. lia.
      * unfold last_page. rewrite Hi1, Hi2. cbn [app].
        replace (150 <=? List.length (p1 ++ p2)%list)%nat with true;
          [apply orb_true_r |].
        symmetry. apply Nat.leb_le. rewrite length_app. lia.
    + cbn. lia.
    + destruct p1 as [| x p1]; [discriminate |].
      rewrite last_page_cons, Hi1. cbn [app]. rewrite L1. reflexivity.
  - rewrite length_app, length_firstn. lia.
Qed.

(** Scenario A behind a first page of pull requests: 100 pull
    requests, 100 issues, 30 issues. *)
Lemma fetch_closed_issues_walk_witness :
  exists issues w',
    fetch_closed_issues 3 sample_link short_third_page = Ret issues w' /\
    List.length issues = 130%nat /\
    requests w' = [page_url sample_link 1; page_url sample_link 2;
                   page_url sample_link 3].
Proof.
  pose (p1 := JList (repeat (JObj [("pull_request", JObj [])]) 100)).
  pose (w' := emit (Request (page_url sample_link 3))
                (emit (Request (page_url sample_link 2))
                   (emit (Request (page_url sample_link 1))
                      short_third_page))).
  assert (Hfetch :
    fetch_pages 3 sample_link 1 3 short_third_page =
    Ret [p1; sample_page 1 100; sample_page 101 30] w')
    by (vm_compute; reflexivity).
  assert (Hgo : forall pre p post,
    [p1; sample_page 1 100] = (pre ++ p :: post)%list ->
    last_page (accumulated pre) p = false).
  { intros pre p post H.
    destruct pre as [| a [| b [| c pre]]]; cbn [app] in H.
    - injection H as <- _. vm_compute. reflexivity.
    - injection H as <- <- _. vm_compute. reflexivity.
    - injection H as _ _ H. discriminate H.
    - injection H as _ _ H. discriminate H. }
  destruct (fetch_closed_issues_walk 3 sample_link short_third_page
              [p1; sample_page 1 100] (sample_page 101 30) w' Hfetch)
    as (_ & issues & Hrun & Hissues & _).
  - repeat constructor.
  - cbn. lia.
  - exact Hgo.
  - vm_compute. reflexivity.
  - exists issues, w'. split; [exact Hrun |]. subst issues.
    split; vm_compute; reflexivity.
Defined.

Lemma fetch_closed_issues_two_full_pages_witness :
  exists issues w',
    fetch_closed_issues 3 sample_link three_full_pages = Ret issues w' /\
    List.length issues = 150%nat.
Proof.
  pose (w1 := emit (Request (page_url sample_link 1)) three_full_pages).
  pose (w2 := emit (Request (page_url sample_link 2)) w1).
  destruct (fetch_closed_issues_two_full_pages 3 sample_link three_full_pages
              (entries (sample_page 1 100)) w1
              (entries (sample_page 101 100)) w2) as [Hrun Hlen].
  - vm_compute. reflexivity.
  - vm_compute. reflexivity.
  - reflexivity.
  - reflexivity.
  - cbn [sample_page entries]. rewrite <- map_app. apply Forall_map.
    apply Forall_forall. intros i _. split; reflexivity.
  - lia.
  - eexists _, w2. split; [exact Hrun | exact Hlen].
Defined.

(** C2 as stated fails on three full pages: the walker returns 150
    issues after two page requests and never asks for page 3. *)
Lemma three_full_pages_two_requests :
  (exists issues w',
      fetch_closed_issues 3 sample_link three_full_pages = Ret issues w' /\
      List.length issues = 150%nat /\
      requests w' = [page_url sample_link 1; page_url sample_link 2]) /\
  ~ (exists issues w',
        fetch_closed_issues 3 sample_link three_full_pages = Ret issues w' /\
        List.length (requests w') = 3%nat).
Proof.
  assert (Hrun :
    exists issues,
      fetch_closed_issues 3 sample_link three_full_pages =
      Ret issues (emit (Request (page_url sample_link 2))
                    (emit (Request (page_url sample_link 1)) three_full_pages))
      /\ List.length issues = 150%nat).
  { eexists. split; [vm_compute; reflexivity | reflexivity]. }
  destruct Hrun as (issues & Hrun & Hlen). split.
  - exists issues. eexists. split; [exact Hrun |]. split; [exact Hlen |].
    reflexivity.
  - intros (issues' & w' & Hrun' & Hreq). rewrite Hrun in Hrun'.
    injection Hrun' as _ <-. discriminate Hreq.
Qed.

(** ** The enricher *)

Lemma get_object (kv : list (string * json)) (k : string) (d : json) :
  Py.get (JObj kv) k d =
  Py.ok (match Py.lookup k kv with Some v => v | None => d end).
Proof. unfold Py.get. destruct (Py.lookup k kv); reflexivity. Qed.

Lemma subscript_has_key (x : json) (k : string) :
  has_key k x = true -> Py.subscript x k = Py.ok (field k x).
Proof.
  destruct x; try discriminate. unfold has_key, Py.subscript, field.
  destruct (Py.lookup k kv); [reflexivity | discriminate].
Qed.

Lemma traverse_names (ls : list json) :
  forallb is_object ls = true ->
  Py.traverse (fun l => Py.get l "name" JNull) ls =
  Py.ok (map (field "name") ls).
Proof.
  induction ls as [| l ls IH]; [reflexivity |].
  cbn [forallb]. intros H. apply andb_prop in H as [Hl Hls].
  cbn [Py.traverse map]. rewrite (IH Hls).
  destruct l; try discriminate. rewrite get_object. reflexivity.
Qed.

(** On a well-formed issue the record is built, its values defaulted
    as the [get] calls say. *)
Lemma enriched_well_formed (issue comments : json) (diffs : list json)
    (repo : string) :
  well_formed issue = true ->
  exists r,
    enriched issue comments diffs repo = Py.ok r /\
    field "issue_id" r = field "number" issue /\
    field "labels" r =
      JList (map (field "name") (entries (field "labels" issue))) /\
    field "assignee" r =
      (if Py.truthy (field "assignee" issue)
       then field "login" (field "assignee" issue)
       else JNull) /\
    field "comments" r = comments /\
    field "code_diff" r = JList diffs /\
    field "repo" r = JStr repo.
Proof.
  destruct issue as [| | | | | kv]; try discriminate.
  unfold well_formed. intros H.
  apply andb_prop in H as [H Hassignee].
  apply andb_prop in H as [H Huser].
  apply andb_prop in H as [_ Hlabels].
  unfold enriched. rewrite !get_object. unfold Py.ok. cbn [Py.bind].
  cbn [field].
  assert (Hls :
    Py.iter (match Py.lookup "labels" kv with
             | Some v => v | None => JList [] end) =
    inr (entries (match Py.lookup "labels" kv with
                  | Some v => v | None => JNull end)) /\
    forallb is_object
      (entries (match Py.lookup "labels" kv with
                | Some v => v | None => JNull end)) = true).
  { destruct (Py.lookup "labels" kv) as [ls |]; [| split; reflexivity].
    destruct ls; try discriminate. split; [reflexivity | exact Hlabels]. }
  destruct Hls as [Hiter Hobjs]. rewrite Hiter. cbn [Py.bind].
  rewrite (traverse_names _ Hobjs). unfold Py.ok. cbn [Py.bind].
  assert (Hlogin : exists author,
    Py.get (match Py.lookup "user" kv with
            | Some v => v | None => JObj [] end) "login" JNull =
    inr author).
  { destruct (Py.lookup "user" kv) as [u |].
    - destruct u; try discriminate. rewrite get_object. eexists. reflexivity.
    - rewrite get_object. eexists. reflexivity. }
  destruct Hlogin as [author ->]. cbn [Py.bind].
  assert (Has :
    (if Py.truthy (match Py.lookup "assignee" kv with
                   | Some v => v | None => JNull end)
     then Py.get (match Py.lookup "assignee" kv with
                  | Some v => v | None => JObj [] end) "login" JNull
     else inr JNull) =
    inr (if Py.truthy (match Py.lookup "assignee" kv with
                       | Some v => v | None => JNull end)
         then field "login" (match Py.lookup "assignee" kv with
                             | Some v => v | None => JNull end)
         else JNull)).
  { destruct (Py.lookup "assignee" kv) as [a |]; [| reflexivity].
    destruct (Py.truthy a); [| reflexivity].
    cbn [negb orb] in Hassignee. destruct a; try discriminate.
    rewrite get_object. reflexivity. }
  rewrite Has. cbn [Py.bind].
  eexists. split; [reflexivity |]. repeat split.
Qed.

Lemma well_formed_keys (issue : json) :
  well_formed issue = true ->
  has_key "number" issue = true /\
  has_key "events_url" issue = true /\
  has_key "comments_url" issue = true.
Proof.
  destruct issue; try discriminate. unfold well_formed. intros H.
  do 3 (apply andb_prop in H as [H _]).
  apply andb_prop in H as [H H3]. apply andb_prop in H as [H1 H2].
  auto.
Qed.

(** Without a SHA the diff is empty and the world untouched. *)
Lemma fetch_commit_diff_no_sha (py_repr : json -> string) (fuel : nat)
    (repo : string) (sha : json) (w : world) :
  Py.truthy sha = false ->
  fetch_commit_diff py_repr fuel repo sha w = Ret [] w.
Proof. intros H. unfold fetch_commit_diff. rewrite H. reflexivity. Qed.

(** [process_issue] on a well-formed issue, its three lookups given. *)
Lemma process_issue_run (py_repr : json -> string) (fuel : nat)
    (issue : json) (scrapLink repo : string) (w w1 w2 w3 : world)
    (sha comments : json) (diffs : list json) :
  well_formed issue = true ->
  repo_of scrapLink = Py.ok repo ->
  fetch_closing_sha fuel (field "events_url" issue) w = Ret sha w1 ->
  fetch_comments fuel (field "comments_url" issue) w1 = Ret comments w2 ->
  fetch_commit_diff py_repr fuel repo sha w2 = Ret diffs w3 ->
  process_issue py_repr fuel issue scrapLink w =
  eval (enriched issue comments diffs repo) w3.
Proof.
  intros Hwf Hrepo Hsha Hcomments Hdiffs.
  destruct (well_formed_keys issue Hwf) as (Hn & He & Hc).
  unfold process_issue, bind.
  rewrite (subscript_has_key issue "number" Hn),
    (subscript_has_key issue "events_url" He),
    (subscript_has_key issue "comments_url" Hc), Hrepo.
  unfold Py.ok. cbn [eval]. rewrite Hsha, Hcomments, Hdiffs. reflexivity.
Qed.

(** C4, the direction the code keeps: when the events feed of a
    well-formed issue holds no "closed" event with a commit id (or is
    not a list), the record [process_issue] returns has
    [code_diff == []], and the run ends in the world the comments fetch
    leaves: no request for a commit is made. *)
Theorem process_issue_no_closing_event :
  forall py_repr fuel issue scrapLink repo w feed w1 comments w2,
    well_formed issue = true ->
    repo_of scrapLink = Py.ok repo ->
    fetch_json fuel (field "events_url" issue) w = Ret feed w1 ->
    Forall (fun e => is_object e = true /\ closing e = false) (entries feed) ->
    fetch_json fuel (field "comments_url" issue) w1 = Ret comments w2 ->
    exists r,
      process_issue py_repr fuel issue scrapLink w = Ret r w2 /\
      field "code_diff" r = JList [].
Proof.
  intros py_repr fuel issue scrapLink repo w feed w1 comments w2
    Hwf Hrepo Hfeed Hnone Hcomments.
  assert (Hsha : fetch_closing_sha fuel (field "events_url" issue) w =
                 Ret JNull w1).
  { unfold fetch_closing_sha, bind. rewrite Hfeed.
    destruct feed; try reflexivity.
    cbn [entries] in Hnone. unfold eval.
    rewrite (closing_scan_none l Hnone). reflexivity. }
  assert (Hcs : fetch_comments fuel (field "comments_url" issue) w1 =
                Ret (match comments with
                     | JList l => JList l
                     | _ => JList []
                     end) w2).
  { unfold fetch_comments, bind. rewrite Hcomments. reflexivity. }
  rewrite (process_issue_run py_repr fuel issue scrapLink repo w w1 w2 w2
             JNull _ [] Hwf Hrepo Hsha Hcs
             (fetch_commit_diff_no_sha py_repr fuel repo JNull w2 eq_refl)).
  destruct (enriched_well_formed issue
              (match comments with JList l => JList l | _ => JList [] end)
              [] repo Hwf) as (r & -> & _ & _ & _ & _ & Hdiff & _).
  exists r. split; [reflexivity | exact Hdiff].
Qed.

Lemma process_issue_no_closing_event_witness :
  exists r w',
    process_issue sample_repr 1 (sample_issue 7) sample_link closed_by_hand =
      Ret r w' /\
    field "code_diff" r = JList [] /\
    requests w' = [sample_link ++ "/7/events"; sample_link ++ "/7/comments"].
Proof.
  destruct (process_issue_no_closing_event sample_repr 1 (sample_issue 7)
              sample_link "octo/demo" closed_by_hand
              (JList [JObj [("event", JStr "labeled")];
                      JObj [("event", JStr "closed")]])
              (emit (Request (sample_link ++ "/7/events")) closed_by_hand)
              (JList [])
              (emit (Request (sample_link ++ "/7/comments"))
                 (emit (Request (sample_link ++ "/7/events")) closed_by_hand)))
    as (r & Hrun & Hdiff).
  - reflexivity.
  - reflexivity.
  - reflexivity.
  - repeat constructor.
  - reflexivity.
  - exists r. eexists. split; [exact Hrun |]. split; [exact Hdiff |].
    reflexivity.
Defined.

(** C4 as stated fails for an issue closed by commit abc whose commit
    the API answers with 404: the feed holds a "closed" event with a
    commit id, the commit is requested, and [code_diff] is empty. *)
Lemma lost_commit_empty_diff :
  exists r w' feed w1,
    process_issue sample_repr 1 (sample_issue 7) sample_link lost_commit =
      Ret r w' /\
    field "code_diff" r = JList [] /\
    fetch_json 1 (field "events_url" (sample_issue 7)) lost_commit =
      Ret (JList feed) w1 /\
    existsb closing feed = true /\
    In (GITHUB ++ "/repos/octo/demo/commits/abc") (requests w').
Proof.
  do 4 eexists. split; [vm_compute; reflexivity |].
  split; [reflexivity |]. split; [vm_compute; reflexivity |].
  split; [reflexivity |]. vm_compute. auto.
Qed.

(** C9, as the code has it: on a well-formed issue whose three lookups
    return, [process_issue] returns a record in which a missing or
    falsy assignee is [None] and the labels list has one entry per
    label, in order, [None] standing for a label without a name. *)
Theorem process_issue_defaults :
  forall py_repr fuel issue scrapLink repo w sha w1 comments w2 diffs w3,
    well_formed issue = true ->
    repo_of scrapLink = Py.ok repo ->
    fetch_closing_sha fuel (field "events_url" issue) w = Ret sha w1 ->
    fetch_comments fuel (field "comments_url" issue) w1 = Ret comments w2 ->
    fetch_commit_diff py_repr fuel repo sha w2 = Ret diffs w3 ->
    exists r,
      process_issue py_repr fuel issue scrapLink w = Ret r w3 /\
      (Py.truthy (field "assignee" issue) = false ->
       field "assignee" r = JNull) /\
      field "labels" r =
        JList (map (field "name") (entries (field "labels" issue))).
Proof.
  intros py_repr fuel issue scrapLink repo w sha w1 comments w2 diffs w3
    Hwf Hrepo Hsha Hcomments Hdiffs.
  rewrite (process_issue_run py_repr fuel issue scrapLink repo w w1 w2 w3
             sha comments diffs Hwf Hrepo Hsha Hcomments Hdiffs).
  destruct (enriched_well_formed issue comments diffs repo Hwf)
    as (r & -> & _ & Hlabels & Hassignee & _).
  exists r. split; [reflexivity |]. split; [| exact Hlabels].
  intros Hfalsy. rewrite Hassignee, Hfalsy. reflexivity.
Qed.

Lemma process_issue_defaults_witness :
  exists r w',
    process_issue sample_repr 1 (sample_issue 7) sample_link closed_by_hand =
      Ret r w' /\
    field "assignee" r = JNull /\
    field "labels" r = JList [JStr "bug"; JNull].
Proof.
  destruct (process_issue_defaults sample_repr 1 (sample_issue 7)
              sample_link "octo/demo" closed_by_hand JNull
              (emit (Request (sample_link ++ "/7/events")) closed_by_hand)
              (JList [])
              (emit (Request (sample_link ++ "/7/comments"))
                 (emit (Request (sample_link ++ "/7/events")) closed_by_hand))
              []
              (emit (Request (sample_link ++ "/7/comments"))
                 (emit (Request (sample_link ++ "/7/events")) closed_by_hand)))
    as (r & Hrun & Hassignee & Hlabels).
  - reflexivity.
  - reflexivity.
  - reflexivity.
  - reflexivity.
  - reflexivity.
  - exists r. eexists. split; [exact Hrun |].
    split; [apply Hassignee; reflexivity | exact Hlabels].
Defined.

(** C9 as stated fails twice: a label without a name is not skipped,
    it stands as [None] in the labels list; and an issue without
    [number] makes [process_issue] raise [KeyError]. *)
Lemma nameless_label_kept :
  (exists r w',
      process_issue sample_repr 1 (sample_issue 7) sample_link closed_by_hand =
        Ret r w' /\
      field "labels" (sample_issue 7) =
        JList [JObj [("name", JStr "bug")]; JObj [("color", JStr "red")]] /\
      field "labels" r = JList [JStr "bug"; JNull]) /\
  process_issue sample_repr 1 (JObj [("title", JStr "Crash on start")])
    sample_link closed_by_hand =
  Exc (KeyError "number") closed_by_hand.
Proof.
  split; [| reflexivity].
  do 2 eexists. split; [vm_compute; reflexivity |]. split; reflexivity.
Qed.

(** ** The orchestrator *)



(** With no issue discovered, the placeholder is the whole result. *)
Lemma scrapIssues_empty (py_repr : json -> string) (fuel : nat)
    (scrapLink repo : string) (w w0 : world) :
  fetch_closed_issues fuel scrapLink w = Ret [] w0 ->
  repo_of scrapLink = Py.ok repo ->
  scrapIssues py_repr fuel scrapLink w = Ret [placeholder repo] w0.
Proof.
  intros Hnone Hrepo. unfold scrapIssues, bind. rewrite Hnone.
  cbn [map gather ret]. rewrite Hrepo. reflexivity.
Qed.



(** C10: the placeholder returned when no issue is discovered has the
    string "no-data" as [issue_id] and exactly the keys [issue_id],
    [title], [body], [comments], [code_diff] and [repo]; the other
    fields of an enriched issue are absent from it. *)
Theorem scrapIssues_placeholder_keys :
  forall py_repr fuel scrapLink repo w w0,
    fetch_closed_issues fuel scrapLink w = Ret [] w0 ->
    repo_of scrapLink = Py.ok repo ->
    exists r,
      scrapIssues py_repr fuel scrapLink w = Ret [r] w0 /\
      Py.subscript r "issue_id" = Py.ok (JStr "no-data") /\
      keys r = ["issue_id"; "title"; "body"; "comments"; "code_diff"; "repo"] /\
      Forall (fun k => has_key k r = false /\
                       Py.subscript r k = Py.raise (KeyError k))
        ["state"; "created_at"; "updated_at"; "closed_at"; "labels";
         "author"; "assignee"; "comments_count"; "events_url";
         "comments_url"; "html_url"].
Proof.
  intros py_repr fuel scrapLink repo w w0 Hnone Hrepo.
  exists (placeholder repo).
  rewrite (scrapIssues_empty py_repr fuel scrapLink repo w w0 Hnone Hrepo).
  split; [reflexivity |]. split; [reflexivity |]. split; [reflexivity |].
  repeat constructor.
Qed.

Lemma scrapIssues_placeholder_keys_witness :
  exists r w0,
    scrapIssues sample_repr 1 sample_link no_issues = Ret [r] w0 /\
    Py.subscript r "issue_id" = Py.ok (JStr "no-data") /\
    Py.subscript r "state" = Py.raise (KeyError "state").
Proof.
  destruct (scrapIssues_placeholder_keys sample_repr 1 sample_link
              "octo/demo" no_issues
              (emit (Request (page_url sample_link 1)) no_issues)
              eq_refl eq_refl) as (r & Hrun & Hid & _ & Habsent).
  exists r. eexists. split; [exact Hrun |]. split; [exact Hid |].
  apply Forall_inv in Habsent. exact (proj2 Habsent).
Defined.

(** * Further properties of the scraper *)

(** ** What one call of the fetcher does to the world *)

(** The effects of one call on URL [u]: each attempt but the last is a
    request followed by a back-off sleep of at least two seconds; the
    last request is followed by at most one printed error, and then the
    result is the empty object. *)
Lemma fetch_json_trace (fuel : nat) :
  forall u w data w',
    fetch_json fuel (JStr u) w = Ret data w' ->
    exists ds tail,
      trace w' =
        (trace w ++ flat_map (fun d => [Request u; Sleep d]) ds
                 ++ Request u :: tail)%list /\
      Forall (fun d => (2 <= d)%Z) ds /\
      (tail = [] \/ (tail = [Log (JStr u)] /\ data = JObj [])) /\
      server w' = server w.
Proof.
  induction fuel as [| fuel IH]; intros u w data w' Hrun; [discriminate |].
  cbn [fetch_json] in Hrun.
  assert (Hfailed :
    failed (JStr u) (emit (Request u) w) = Ret data w' ->
    exists ds tail,
      trace w' =
        (trace w ++ flat_map (fun d => [Request u; Sleep d]) ds
                 ++ Request u :: tail)%list /\
      Forall (fun d => (2 <= d)%Z) ds /\
      (tail = [] \/ (tail = [Log (JStr u)] /\ data = JObj [])) /\
      server w' = server w).
  { intros H. unfold failed in H. injection H as <- <-.
    exists [], [Log (JStr u)]. cbn [flat_map app emit trace server].
    rewrite <- app_assoc. repeat split; auto. }
  assert (Hbody : forall resp,
    body_of (JStr u) resp (emit (Request u) w) = Ret data w' ->
    exists ds tail,
      trace w' =
        (trace w ++ flat_map (fun d => [Request u; Sleep d]) ds
                 ++ Request u :: tail)%list /\
      Forall (fun d => (2 <= d)%Z) ds /\
      (tail = [] \/ (tail = [Log (JStr u)] /\ data = JObj [])) /\
      server w' = server w).
  { intros resp H. unfold body_of in H.
    destruct (400 <=? status resp)%Z; [apply (Hfailed H) |].
    destruct (payload resp) as [d |]; [| apply (Hfailed H)].
    injection H as <- <-. exists [], []. cbn [flat_map app emit trace server].
    repeat split; auto. }
  destruct (server w (trace w) u) as [| resp];
    [apply (Hfailed Hrun) |].
  destruct (status resp =? 403)%Z; [| apply (Hbody resp Hrun)].
  destruct (rate_limit_reset resp) as [reset |]; [| apply (Hbody resp Hrun)].
  destruct (negb (reset =? "")); [| apply (Hbody resp Hrun)].
  destruct (Py.int reset) as [r |]; [| apply (Hfailed Hrun)].
  apply IH in Hrun as (ds & tail & Ht & Hds & Htail & Hs).
  exists (Z.max (r - loop_time (emit (Request u) w)) 2 :: ds), tail.
  split; [| split; [| split]].
  - rewrite Ht. cbn [sleep emit trace flat_map app].
    rewrite <- !app_assoc. reflexivity.
  - constructor; [apply Z.le_max_r | exact Hds].
  - exact Htail.
  - rewrite Hs. reflexivity.
Qed.

Lemma requests_retries (u : string) (ds : list Z) (tail : list event) :
  (tail = [] \/ tail = [Log (JStr u)]) ->
  flat_map (fun e => match e with Request v => [v] | _ => [] end)
    (flat_map (fun d => [Request u; Sleep d]) ds ++ Request u :: tail) =
  repeat u (S (List.length ds)).
Proof.
  intros Htail. induction ds as [| d ds IH].
  - destruct Htail as [-> | ->]; reflexivity.
  - cbn [flat_map app List.length repeat] in *. rewrite IH. reflexivity.
Qed.

Lemma sleeps_retries (u : string) (ds : list Z) (tail : list event) :
  (tail = [] \/ tail = [Log (JStr u)]) ->
  flat_map (fun e => match e with Sleep d => [d] | _ => [] end)
    (flat_map (fun d => [Request u; Sleep d]) ds ++ Request u :: tail) = ds.
Proof.
  intros Htail. induction ds as [| d ds IH].
  - destruct Htail as [-> | ->]; reflexivity.
  - cbn [flat_map app] in *. rewrite IH. reflexivity.
Qed.

(** X1: whenever [fetch_json] returns, every request it made went to
    the URL it was given, it made exactly one more request than it
    slept, and each of its sleeps lasted at least 2 seconds. *)
Theorem fetch_json_retries_same_url :
  forall fuel u w data w',
    fetch_json fuel (JStr u) w = Ret data w' ->
    exists ds,
      sleeps w' = (sleeps w ++ ds)%list /\
      Forall (fun d => (2 <= d)%Z) ds /\
      requests w' = (requests w ++ repeat u (S (List.length ds)))%list.
Proof.
  intros fuel u w data w' Hrun.
  destruct (fetch_json_trace fuel u w data w' Hrun)
    as (ds & tail & Ht & Hds & Htail & _).
  assert (Htail' : tail = [] \/ tail = [Log (JStr u)]) by tauto.
  exists ds. unfold sleeps, requests. rewrite Ht, !flat_map_app.
  rewrite <- flat_map_app, (sleeps_retries u ds tail Htail').
  rewrite <- flat_map_app, (requests_retries u ds tail Htail').
  auto.
Qed.

Lemma fetch_json_retries_same_url_witness :
  exists data w',
    fetch_json 2 (JStr sample_link)
      (boot (throttled_api "1700000005" (JList []))) = Ret data w' /\
    requests w' = [sample_link; sample_link] /\
    List.length (sleeps w') = 1%nat.
Proof.
  destruct (fetch_json_retries_same_url 2 sample_link
              (boot (throttled_api "1700000005" (JList [])))
              (JList [])
              (emit (Request sample_link)
                 (sleep 1699999005
                    (emit (Request sample_link)
                       (boot (throttled_api "1700000005" (JList []))))))
              eq_refl) as (ds & Hs & _ & Hr).
  do 2 eexists. split; [reflexivity |]. split; reflexivity.
Defined.

(** X2: [fetch_json] prints an error only when it returns the empty
    object: a call that returns anything else has printed nothing, and
    a caller cannot tell a failed fetch from a body [{}]. *)
Theorem fetch_json_prints_only_with_empty :
  forall fuel url w data w',
    fetch_json fuel url w = Ret data w' ->
    exists new,
      trace w' = (trace w ++ new)%list /\
      ((exists x, In (Log x) new) -> data = JObj []).
Proof.
  intros fuel url w data w' Hrun.
  destruct url as [| | | u | |];
    try (destruct fuel; [discriminate |]; cbn [fetch_json] in Hrun;
         unfold failed in Hrun; injection Hrun as <- <-;
         eexists; split; [reflexivity | reflexivity]).
  destruct (fetch_json_trace fuel u w data w' Hrun)
    as (ds & tail & Ht & _ & Htail & _).
  eexists. split; [exact Ht |]. intros [x Hx].
  apply in_app_or in Hx as [Hx | Hx].
  - exfalso. clear - Hx. induction ds as [| d ds IH]; cbn [flat_map app] in Hx;
      [contradiction |].
    destruct Hx as [Hx | [Hx | Hx]]; [discriminate | discriminate | auto].
  - destruct Hx as [Hx | Hx]; [discriminate |].
    destruct Htail as [-> | [_ Hdata]]; [contradiction | exact Hdata].
Qed.

Lemma fetch_json_prints_only_with_empty_witness :
  exists data w',
    fetch_json 1 (JStr sample_link) unplugged = Ret data w' /\
    In (Log (JStr sample_link)) (trace w') /\
    data = JObj [].
Proof.
  destruct (fetch_json_prints_only_with_empty 1 (JStr sample_link) unplugged
              (JObj [])
              (emit (Log (JStr sample_link))
                 (emit (Request sample_link) unplugged)) eq_refl)
    as (new & Hnew & Hempty).
  do 2 eexists. split; [reflexivity |]. split; [| reflexivity].
  right. left. reflexivity.
Defined.

(** ** The three lookups *)

(** X3: [fetch_comments] never raises, and what it returns is always a
    list: the decoded body when that is a list, the empty list for any
    other body and for every failed fetch. *)
Theorem fetch_comments_always_list :
  forall fuel url w,
    (forall e w', fetch_comments fuel url w <> Exc e w') /\
    (forall c w',
        fetch_comments fuel url w = Ret c w' ->
        exists data,
          fetch_json fuel url w = Ret data w' /\ c = JList (entries data)).
Proof.
  intros fuel url w. unfold fetch_comments, bind, ret.
  destruct (fetch_json fuel url w) as [data w1 | e w1 |] eqn:Hfetch.
  - split; [discriminate |]. intros c w' H. injection H as <- <-.
    exists data. split; [reflexivity |]. destruct data; reflexivity.
  - exfalso. exact (fetch_json_no_exception fuel url w e w1 Hfetch).
  - split; discriminate.
Qed.

Lemma fetch_comments_always_list_witness :
  exists w',
    fetch_comments 1 (JStr (sample_link ++ "/7/comments")) unplugged =
    Ret (JList []) w'.
Proof.
  destruct (proj2 (fetch_comments_always_list 1
                     (JStr (sample_link ++ "/7/comments")) unplugged)
              (JList [])
              (emit (Log (JStr (sample_link ++ "/7/comments")))
                 (emit (Request (sample_link ++ "/7/comments")) unplugged))
              eq_refl) as (data & Hfetch & Hc).
  eexists. reflexivity.
Defined.

Lemma closing_scan_result (events : list json) (sha : json) :
  closing_scan events = Py.ok sha ->
  sha = JNull \/
  (Py.truthy sha = true /\
   exists e, In e events /\ closing e = true /\ field "commit_id" e = sha).
Proof.
  induction events as [| e events IH]; cbn [closing_scan].
  - intros H. injection H as <-. left. reflexivity.
  - destruct e as [| | | | | kv]; try discriminate.
    rewrite get_object. unfold Py.ok. cbn [Py.bind].
    assert (Hrest : closing_scan events = inr sha ->
      sha = JNull \/
      (Py.truthy sha = true /\
       exists e, In e (JObj kv :: events) /\ closing e = true /\
                 field "commit_id" e = sha)).
    { intros H. destruct (IH H) as [-> | (Ht & e & Hin & Hc & Hf)];
        [left; reflexivity | right]. split; [exact Ht |].
      exists e. split; [right; exact Hin | split; assumption]. }
    destruct (Py.eq_str (match Py.lookup "event" kv with
                         | Some v => v
                         | None => JNull
                         end) "closed") eqn:Hkind; [| exact Hrest].
    rewrite get_object. unfold Py.ok. cbn [Py.bind].
    destruct (Py.truthy (match Py.lookup "commit_id" kv with
                         | Some v => v
                         | None => JNull
                         end)) eqn:Hsha; [| exact Hrest].
    unfold Py.subscript.
    destruct (Py.lookup "commit_id" kv) as [c |] eqn:Hc; [| discriminate].
    intros H. injection H as <-. right. split; [exact Hsha |].
    exists (JObj kv). split; [left; reflexivity |].
    unfold closing, field. rewrite Hc, Hkind, Hsha. split; reflexivity.
Qed.

(** X4: whatever the feed holds, a SHA returned by [fetch_closing_sha]
    is either [None] or a truthy value that is the commit id of an
    event of kind "closed" in the feed: an empty or null commit id is
    never returned. *)
Theorem fetch_closing_sha_sound :
  forall fuel url w sha w',
    fetch_closing_sha fuel url w = Ret sha w' ->
    sha = JNull \/
    (Py.truthy sha = true /\
     exists feed e,
       fetch_json fuel url w = Ret (JList feed) w' /\
       In e feed /\ closing e = true /\ field "commit_id" e = sha).
Proof.
  intros fuel url w sha w'. unfold fetch_closing_sha, bind, ret.
  destruct (fetch_json fuel url w) as [feed w1 | |]; try discriminate.
  destruct feed as [| | | | l |];
    try (intros H; injection H as <- _; left; reflexivity).
  unfold eval. destruct (closing_scan l) as [| s] eqn:Hscan; [discriminate |].
  intros H. injection H as <- <-.
  destruct (closing_scan_result l s Hscan) as [-> | (Ht & e & Hin & Hc & Hf)];
    [left; reflexivity | right].
  split; [exact Ht |]. exists l, e. auto.
Qed.

Lemma fetch_closing_sha_sound_witness :
  exists feed e w',
    fetch_json 1 (JStr (sample_link ++ "/7/events")) lost_commit =
      Ret (JList feed) w' /\
    In e feed /\ closing e = true /\ field "commit_id" e = JStr "abc".
Proof.
  destruct (fetch_closing_sha_sound 1 (JStr (sample_link ++ "/7/events"))
              lost_commit (JStr "abc")
              (emit (Request (sample_link ++ "/7/events")) lost_commit)
              eq_refl) as [Hnull | (_ & feed & e & H)].
  - discriminate Hnull.
  - exists feed, e. eexists. exact H.
Defined.

(** X5: an entry of the feed that is not a record, met before any
    closing event, makes [fetch_closing_sha] raise [AttributeError]:
    the scan calls [.get] on every entry it visits. *)
Theorem fetch_closing_sha_raises_on_non_record :
  forall fuel url w pre x post w1,
    fetch_json fuel url w = Ret (JList (pre ++ x :: post)) w1 ->
    Forall (fun e => is_object e = true /\ closing e = false) pre ->
    is_object x = false ->
    fetch_closing_sha fuel url w = Exc AttributeError w1.
Proof.
  intros fuel url w pre x post w1 Hfetch Hpre Hx.
  unfold fetch_closing_sha, bind. rewrite Hfetch. unfold eval.
  replace (closing_scan (pre ++ x :: post)) with
    (@inl exn json AttributeError); [reflexivity |].
  clear Hfetch. induction Hpre as [| e pre [Hobj Hc] _ IH]; cbn [app].
  - destruct x; try discriminate; reflexivity.
  - rewrite closing_scan_skip by assumption. exact IH.
Qed.

Lemma fetch_closing_sha_raises_on_non_record_witness :
  exists w1,
    fetch_closing_sha 1 (JStr (sample_link ++ "/7/events")) garbled_feed =
    Exc AttributeError w1.
Proof.
  eexists.
  apply (fetch_closing_sha_raises_on_non_record 1
           (JStr (sample_link ++ "/7/events")) garbled_feed
           [JObj [("event", JStr "labeled")]] (JStr "closed") []
           (emit (Request (sample_link ++ "/7/events")) garbled_feed)).
  - reflexivity.
  - repeat constructor.
  - reflexivity.
Defined.

Lemma traverse_diff_entries (fs : list json) :
  forallb is_object fs = true ->
  Py.traverse diff_entry fs =
  Py.ok (map (fun f => JObj [("path", field "filename" f);
                             ("diff", if has_key "patch" f
                                      then field "patch" f else JStr "")])
           fs).
Proof.
  induction fs as [| f fs IH]; [reflexivity |].
  cbn [forallb]. intros H. apply andb_prop in H as [Hf Hfs].
  cbn [Py.traverse map]. rewrite (IH Hfs).
  destruct f as [| | | | | kv]; try discriminate.
  unfold diff_entry. rewrite !get_object. unfold Py.ok. cbn [Py.bind].
  unfold field, has_key.
  destruct (Py.lookup "filename" kv), (Py.lookup "patch" kv); reflexivity.
Qed.

(** X6: for a commit whose response is an object listing file records,
    [fetch_commit_diff] returns one diff per file, in the order of the
    response: [path] is the file's [filename] ([None] if it has none)
    and [diff] its [patch], the empty string when the file has no patch
    (a binary file).  A response without [files] gives no diff. *)
Theorem fetch_commit_diff_per_file :
  forall py_repr fuel repo sha w data w' files,
    Py.truthy sha = true ->
    fetch_json fuel (JStr (commit_url py_repr repo sha)) w = Ret data w' ->
    is_object data = true ->
    (if has_key "files" data then field "files" data else JList []) =
      JList files ->
    forallb is_object files = true ->
    exists diffs,
      fetch_commit_diff py_repr fuel repo sha w = Ret diffs w' /\
      List.length diffs = List.length files /\
      forall i f,
        nth_error files i = Some f ->
        nth_error diffs i =
        Some (JObj [("path", field "filename" f);
                    ("diff", if has_key "patch" f
                             then field "patch" f else JStr "")]).
Proof.
  intros py_repr fuel repo sha w data w' files Hsha Hfetch Hobj Hfiles Hrec.
  eexists. split; [| split].
  - unfold fetch_commit_diff. rewrite Hsha. cbn [negb]. unfold bind at 1.
    rewrite Hfetch. destruct data as [| | | | | kv]; try discriminate.
    rewrite get_object. unfold Py.ok. cbn [Py.bind].
    unfold has_key, field in Hfiles.
    replace (match Py.lookup "files" kv with
             | Some v => v
             | None => JList []
             end) with (JList files)
      by (destruct (Py.lookup "files" kv); auto).
    cbn [Py.iter]. unfold bind, eval, Py.ok. cbv beta iota.
    rewrite (traverse_diff_entries files Hrec). reflexivity.
  - apply length_map.
  - intros i f Hi. rewrite nth_error_map, Hi. reflexivity.
Qed.

Lemma fetch_commit_diff_per_file_witness :
  exists w',
    fetch_commit_diff sample_repr 1 "octo/demo" (JStr "abc") commit_two_files =
    Ret [JObj [("path", JStr "a.py"); ("diff", JStr "@@ -1 +1 @@")];
         JObj [("path", JStr "logo.png"); ("diff", JStr "")]] w'.
Proof.
  destruct (fetch_commit_diff_per_file sample_repr 1 "octo/demo" (JStr "abc")
              commit_two_files
              (JObj [("sha", JStr "abc");
                     ("files", JList [JObj [("filename", JStr "a.py");
                                            ("patch", JStr "@@ -1 +1 @@")];
                                      JObj [("filename", JStr "logo.png")]])])
              (emit (Request (GITHUB ++ "/repos/octo/demo/commits/abc"))
                 commit_two_files)
              [JObj [("filename", JStr "a.py"); ("patch", JStr "@@ -1 +1 @@")];
               JObj [("filename", JStr "logo.png")]]
              eq_refl eq_refl eq_refl eq_refl eq_refl)
    as (diffs & Hrun & _).
  eexists. reflexivity.
Defined.

(** X7: when the commit endpoint answers with JSON that is not an
    object (an array, a string, a number), [fetch_commit_diff] raises
    [AttributeError] instead of returning an empty diff. *)
Theorem fetch_commit_diff_raises_on_non_object :
  forall py_repr fuel repo sha w data w',
    Py.truthy sha = true ->
    fetch_json fuel (JStr (commit_url py_repr repo sha)) w = Ret data w' ->
    is_object data = false ->
    fetch_commit_diff py_repr fuel repo sha w = Exc AttributeError w'.
Proof.
  intros py_repr fuel repo sha w data w' Hsha Hfetch Hobj.
  unfold fetch_commit_diff. rewrite Hsha. cbn [negb]. unfold bind at 1.
  rewrite Hfetch. destruct data; try discriminate; reflexivity.
Qed.

Lemma fetch_commit_diff_raises_on_non_object_witness :
  exists w',
    fetch_commit_diff sample_repr 1 "octo/demo" (JStr "abc") commit_as_list =
    Exc AttributeError w'.
Proof.
  eexists.
  apply (fetch_commit_diff_raises_on_non_object sample_repr 1 "octo/demo"
           (JStr "abc") commit_as_list (JList [JObj []])
           (emit (Request (GITHUB ++ "/repos/octo/demo/commits/abc"))
              commit_as_list)).
  - reflexivity.
  - reflexivity.
  - reflexivity.
Defined.

(** ** More on the pagination walker *)

Lemma reject_sound (p : json -> py bool) (l xs : list json) :
  Py.reject p l = Py.ok xs -> Forall (fun x => p x = Py.ok false) xs.
Proof.
  revert xs. induction l as [| x l IH]; intros xs; cbn [Py.reject].
  - intros H. injection H as <-. constructor.
  - destruct (p x) as [| b] eqn:Hx; [discriminate |]. cbn [Py.bind].
    destruct (Py.reject p l) as [| ys]; [discriminate |]. cbn [Py.bind].
    intros H. injection H as <-. specialize (IH ys eq_refl).
    destruct b; [exact IH | constructor; assumption].
Qed.

(** What the loop returns: the first 150 of its accumulator extended
    with entries that passed the [pull_request] test. *)
Lemma closed_issues_loop_result (rounds : nat) :
  forall fuel scrapLink page acc w l w',
    closed_issues_loop rounds fuel scrapLink page acc w = Ret l w' ->
    exists more,
      l = firstn 150 (acc ++ more)%list /\
      Forall (fun x => Py.contains "pull_request" x = Py.ok false) more.
Proof.
  induction rounds as [| rounds IH]; intros fuel scrapLink page acc w l w';
    cbn [closed_issues_loop].
  - destruct (List.length acc <? 150)%nat; [discriminate |].
    intros H. injection H as <- _. exists []. rewrite app_nil_r. auto.
  - destruct (List.length acc <? 150)%nat.
    2: { intros H. injection H as <- _. exists []. rewrite app_nil_r. auto. }
    unfold bind at 1.
    destruct (fetch_json fuel (JStr (page_url scrapLink page)) w)
      as [issues w1 | |]; try discriminate.
    destruct issues as [| | | | p |];
      try (intros H; injection H as <- _; exists []; rewrite app_nil_r; auto).
    destruct p as [| x p];
      [intros H; injection H as <- _; exists []; rewrite app_nil_r; auto |].
    unfold bind at 1, eval at 1.
    destruct (Py.reject (Py.contains "pull_request") (x :: p))
      as [| filtered] eqn:Hf; [discriminate |].
    pose proof (reject_sound _ _ _ Hf) as Hok.
    destruct (List.length (x :: p) <? 100)%nat.
    + intros H. injection H as <- _. exists filtered. auto.
    + intros H. apply IH in H as (more & -> & Hmore).
      exists (filtered ++ more)%list. rewrite app_assoc. split; [reflexivity |].
      apply Forall_app. auto.
Qed.

(** X8: whatever the API serves, [fetch_closed_issues] never returns
    more than 150 issues. *)
Theorem fetch_closed_issues_at_most_150 :
  forall fuel scrapLink w l w',
    fetch_closed_issues fuel scrapLink w = Ret l w' ->
    (List.length l <= 150)%nat.
Proof.
  intros fuel scrapLink w l w' H.
  apply closed_issues_loop_result in H as (more & -> & _).
  apply firstn_le_length.
Qed.

Lemma fetch_closed_issues_at_most_150_witness :
  exists l w',
    fetch_closed_issues 3 sample_link three_full_pages = Ret l w' /\
    (List.length l <= 150)%nat.
Proof.
  destruct (fetch_closed_issues 3 sample_link three_full_pages)
    as [l w' | e w' |] eqn:Hrun.
  - exists l, w'. split; [reflexivity |].
    exact (fetch_closed_issues_at_most_150 3 sample_link three_full_pages
             l w' Hrun).
  - vm_compute in Hrun. discriminate Hrun.
  - vm_compute in Hrun. discriminate Hrun.
Defined.

(** X9: whatever the API serves, no entry returned by
    [fetch_closed_issues] passes the test ["pull_request" in entry]:
    pull requests never reach the enricher. *)
Theorem fetch_closed_issues_no_pull_request :
  forall fuel scrapLink w l w',
    fetch_closed_issues fuel scrapLink w = Ret l w' ->
    Forall (fun x => Py.contains "pull_request" x = Py.ok false) l.
Proof.
  intros fuel scrapLink w l w' H.
  apply closed_issues_loop_result in H as (more & -> & Hmore).
  cbn [app]. apply Forall_forall. intros x Hx.
  rewrite Forall_forall in Hmore. apply Hmore.
  rewrite <- (firstn_skipn 150 more). apply in_or_app. left. exact Hx.
Qed.

Lemma fetch_closed_issues_no_pull_request_witness :
  exists l w',
    fetch_closed_issues 3 sample_link short_third_page = Ret l w' /\
    Forall (fun x => Py.contains "pull_request" x = Py.ok false) l.
Proof.
  destruct (fetch_closed_issues 3 sample_link short_third_page)
    as [l w' | e w' |] eqn:Hrun.
  - exists l, w'. split; [reflexivity |].
    exact (fetch_closed_issues_no_pull_request 3 sample_link short_third_page
             l w' Hrun).
  - vm_compute in Hrun. discriminate Hrun.
  - vm_compute in Hrun. discriminate Hrun.
Defined.

Lemma reject_type_error (k : string) (l : list json) :
  existsb (fun x => negb (is_container x)) l = true ->
  Py.reject (Py.contains k) l = Py.raise TypeError.
Proof.
  induction l as [| x l IH]; [discriminate |].
  cbn [existsb Py.reject]. intros H.
  destruct x; cbn [is_container negb orb] in H; try reflexivity;
    cbn [Py.contains Py.ok Py.bind]; rewrite (IH H); reflexivity.
Qed.

(** X10: a first page that lists an entry which is [null], a number or
    a boolean makes [fetch_closed_issues] raise [TypeError] once the
    page is fetched: the [in] test is applied to every entry. *)
Theorem fetch_closed_issues_raises_on_scalar_entry :
  forall fuel scrapLink w page w1,
    fetch_json (S fuel) (JStr (page_url scrapLink 1)) w =
      Ret (JList page) w1 ->
    existsb (fun x => negb (is_container x)) page = true ->
    fetch_closed_issues (S fuel) scrapLink w = Exc TypeError w1.
Proof.
  intros fuel scrapLink w page w1 Hfetch Hbad.
  unfold fetch_closed_issues. cbn [closed_issues_loop List.length].
  change (0 <? 150)%nat with true. cbv iota. unfold bind at 1.
  rewrite Hfetch. destruct page as [| x page]; [discriminate |].
  unfold bind, eval. rewrite (reject_type_error "pull_request" _ Hbad).
  reflexivity.
Qed.

Lemma fetch_closed_issues_raises_on_scalar_entry_witness :
  exists w1, fetch_closed_issues 1 sample_link null_entry = Exc TypeError w1.
Proof.
  eexists.
  apply (fetch_closed_issues_raises_on_scalar_entry 0 sample_link null_entry
           [sample_issue 1; JNull]
           (emit (Request (page_url sample_link 1)) null_entry)).
  - reflexivity.
  - reflexivity.
Defined.

Lemma reject_all (k : string) (l : list json) :
  Forall (fun x => is_object x = true /\ has_key k x = true) l ->
  Py.reject (Py.contains k) l = Py.ok [].
Proof.
  induction 1 as [| x l [Hobj Hkey] _ IH]; [reflexivity |].
  cbn [Py.reject]. rewrite IH. destruct x; try discriminate.
  unfold has_key in Hkey. cbn [Py.contains].
  destruct (Py.lookup k kv); [reflexivity | discriminate].
Qed.

(** A 200 with a JSON body is returned after one request. *)
Lemma fetch_json_found (fuel : nat) (u : string) (w : world) (data : json) :
  server w (trace w) u = found data ->
  fetch_json (S fuel) (JStr u) w = Ret data (emit (Request u) w).
Proof. intros H. cbn [fetch_json]. rewrite H. reflexivity. Qed.

(** X11: the walker has no cap on pages.  Against an API that answers
    every page request with 100 or more pull requests, nothing is ever
    accumulated and [fetch_closed_issues] does not return, whatever
    bound it is run with. *)
Theorem fetch_closed_issues_endless :
  forall scrapLink prs w,
    (forall history url, server w history url = found (JList prs)) ->
    (100 <= List.length prs)%nat ->
    Forall (fun x => is_object x = true /\ has_key "pull_request" x = true)
      prs ->
    forall fuel, fetch_closed_issues fuel scrapLink w = Hang.
Proof.
  intros scrapLink prs w Hserver Hfull Hprs fuel.
  unfold fetch_closed_issues. generalize 1%Z as page. generalize fuel at 1.
  intros rounds. revert w Hserver.
  induction rounds as [| rounds IH]; intros w Hserver page; [reflexivity |].
  cbn [closed_issues_loop List.length].
  change (0 <? 150)%nat with true. cbv iota. unfold bind at 1.
  destruct fuel as [| fuel']; [reflexivity |].
  rewrite (fetch_json_found fuel' _ w (JList prs) (Hserver _ _)).
  destruct prs as [| x prs]; [cbn in Hfull; lia |].
  unfold bind at 1, eval. rewrite (reject_all "pull_request" _ Hprs).
  unfold Py.ok. cbn [app].
  apply Nat.ltb_ge in Hfull. rewrite Hfull.
  apply IH. intros history url. exact (Hserver history url).
Qed.

Lemma fetch_closed_issues_endless_witness :
  fetch_closed_issues 40 sample_link endless_pull_requests = Hang.
Proof.
  apply (fetch_closed_issues_endless sample_link
           (repeat (JObj [("number", JNum 1); ("pull_request", JObj [])]) 100)
           endless_pull_requests).
  - reflexivity.
  - rewrite repeat_length. apply le_n.
  - apply Forall_forall. intros x Hx. apply repeat_spec in Hx. subst x.
    split; reflexivity.
Defined.

Lemma fetch_json_requests (fuel : nat) (u : string) (w w' : world)
    (data : json) :
  fetch_json fuel (JStr u) w = Ret data w' ->
  exists n, requests w' = (requests w ++ repeat u (S n))%list.
Proof.
  intros Hrun.
  destruct (fetch_json_trace fuel u w data w' Hrun)
    as (ds & tail & Ht & _ & Htail & _).
  assert (Htail' : tail = [] \/ tail = [Log (JStr u)]) by tauto.
  exists (List.length ds). unfold requests. rewrite Ht, flat_map_app.
  rewrite (requests_retries u ds tail Htail'). reflexivity.
Qed.

Lemma closed_issues_loop_requests (rounds : nat) :
  forall fuel scrapLink page acc w l w',
    closed_issues_loop rounds fuel scrapLink page acc w = Ret l w' ->
    exists throttled,
      requests w' = (requests w ++ page_requests scrapLink page throttled)%list
      /\ ((List.length acc < 150)%nat -> throttled <> []).
Proof.
  induction rounds as [| rounds IH]; intros fuel scrapLink page acc w l w';
    cbn [closed_issues_loop].
  - destruct (Nat.ltb_spec (List.length acc) 150); [discriminate |].
    intros H0. injection H0 as _ <-. exists []. cbn [page_requests].
    rewrite app_nil_r. split; [reflexivity | lia].
  - destruct (Nat.ltb_spec (List.length acc) 150).
    2: { intros H0. injection H0 as _ <-. exists []. cbn [page_requests].
         rewrite app_nil_r. split; [reflexivity | lia]. }
    unfold bind at 1.
    destruct (fetch_json fuel (JStr (page_url scrapLink page)) w)
      as [issues w1 | |] eqn:Hfetch; try discriminate.
    destruct (fetch_json_requests _ _ _ _ _ Hfetch) as [n Hn].
    assert (Hstop : forall w2, w2 = w1 ->
      exists throttled,
        requests w2 =
          (requests w ++ page_requests scrapLink page throttled)%list /\
        ((List.length acc < 150)%nat -> throttled <> [])).
    { intros w2 ->. exists [n]. cbn [page_requests]. rewrite app_nil_r.
      split; [exact Hn | discriminate]. }
    destruct issues as [| | | | p |];
      try (intros H0; injection H0 as _ <-; apply Hstop; reflexivity).
    destruct p as [| x p];
      [intros H0; injection H0 as _ <-; apply Hstop; reflexivity |].
    unfold bind at 1, eval at 1.
    destruct (Py.reject (Py.contains "pull_request") (x :: p))
      as [| filtered]; [discriminate |].
    destruct (List.length (x :: p) <? 100)%nat;
      [intros H0; injection H0 as _ <-; apply Hstop; reflexivity |].
    intros H0. apply IH in H0 as (throttled & Hreq & _).
    exists (n :: throttled). cbn [page_requests].
    split; [| discriminate]. rewrite Hreq, Hn, <- app_assoc. reflexivity.
Qed.

(** X12: whenever [fetch_closed_issues] returns, the requests it made
    are page requests only, for page 1, 2, 3, ... in this order without
    a gap, each page requested once plus once per throttled attempt;
    page 1 is always requested. *)
Theorem fetch_closed_issues_pages_in_order :
  forall fuel scrapLink w l w',
    fetch_closed_issues fuel scrapLink w = Ret l w' ->
    exists throttled,
      throttled <> [] /\
      requests w' = (requests w ++ page_requests scrapLink 1 throttled)%list.
Proof.
  intros fuel scrapLink w l w' H.
  apply closed_issues_loop_requests in H as (throttled & Hreq & Hne).
  exists throttled. split; [apply Hne; cbn; lia | exact Hreq].
Qed.

Lemma fetch_closed_issues_pages_in_order_witness :
  exists l w',
    fetch_closed_issues 3 sample_link short_third_page = Ret l w' /\
    requests w' = [page_url sample_link 1; page_url sample_link 2;
                   page_url sample_link 3].
Proof.
  destruct (fetch_closed_issues 3 sample_link short_third_page)
    as [l w' | e w' |] eqn:Hrun.
  - destruct (fetch_closed_issues_pages_in_order 3 sample_link
                short_third_page l w' Hrun) as (throttled & _ & _).
    exists l, w'. split; [reflexivity |].
    vm_compute in Hrun. injection Hrun as _ <-. reflexivity.
  - vm_compute in Hrun. discriminate Hrun.
  - vm_compute in Hrun. discriminate Hrun.
Defined.

(** ** More on the enricher *)

Lemma subscript_inv (x : json) (k : string) (v : json) :
  Py.subscript x k = Py.ok v -> has_key k x = true /\ v = field k x.
Proof.
  destruct x; try discriminate. unfold Py.subscript, has_key, field.
  destruct (Py.lookup k kv); [| discriminate].
  intros H. injection H as <-. split; reflexivity.
Qed.

(** The steps of a run of [process_issue] that returns. *)
Lemma process_issue_inv (py_repr : json -> string) (fuel : nat)
    (issue : json) (scrapLink : string) (w w' : world) (r : json) :
  process_issue py_repr fuel issue scrapLink w = Ret r w' ->
  exists repo sha comments diffs w1 w2,
    repo_of scrapLink = Py.ok repo /\
    fetch_closing_sha fuel (field "events_url" issue) w = Ret sha w1 /\
    fetch_comments fuel (field "comments_url" issue) w1 = Ret comments w2 /\
    fetch_commit_diff py_repr fuel repo sha w2 = Ret diffs w' /\
    enriched issue comments diffs repo = Py.ok r.
Proof.
  unfold process_issue, bind.
  destruct (Py.subscript issue "number") as [? | issue_id];
    cbn [eval]; [discriminate |].
  destruct (repo_of scrapLink) as [? | repo]; cbn [eval]; [discriminate |].
  destruct (Py.subscript issue "events_url") as [? | events_url] eqn:He;
    cbn [eval]; [discriminate |].
  destruct (Py.subscript issue "comments_url") as [? | comments_url] eqn:Hc;
    cbn [eval]; [discriminate |].
  apply subscript_inv in He as [_ ->]. apply subscript_inv in Hc as [_ ->].
  destruct (fetch_closing_sha fuel (field "events_url" issue) w)
    as [sha w1 | |] eqn:Hs; try discriminate.
  destruct (fetch_comments fuel (field "comments_url" issue) w1)
    as [comments w2 | |] eqn:Hcs; try discriminate.
  destruct (fetch_commit_diff py_repr fuel repo sha w2)
    as [diffs w3 | |] eqn:Hd; try discriminate.
  destruct (enriched issue comments diffs repo) as [? | r0] eqn:E;
    cbn [eval]; [discriminate |].
  intros H. injection H as <- <-.
  exists repo, sha, comments, diffs, w1, w2.
  repeat split; try reflexivity; assumption.
Qed.

(** The record built from an issue: the plain fields are copied or
    defaulted; labels, author and assignee are what their expressions
    gave. *)
Lemma enriched_inv (issue comments : json) (diffs : list json)
    (repo : string) (r : json) :
  enriched issue comments diffs repo = Py.ok r ->
  exists labels author assignee,
    r = JObj [
      ("issue_id", field "number" issue);
      ("title", field_or "title" (JStr "") issue);
      ("body", field_or "body" (JStr "") issue);
      ("state", field "state" issue);
      ("created_at", field "created_at" issue);
      ("updated_at", field "updated_at" issue);
      ("closed_at", field "closed_at" issue);
      ("labels", JList labels);
      ("author", author);
      ("assignee", assignee);
      ("comments_count", field_or "comments" (JNum 0) issue);
      ("comments", comments);
      ("code_diff", JList diffs);
      ("events_url", field "events_url" issue);
      ("comments_url", field "comments_url" issue);
      ("html_url", field "html_url" issue);
      ("repo", JStr repo)
    ].
Proof.
  destruct issue as [| | | | | kv]; try discriminate.
  unfold enriched. rewrite !get_object. unfold Py.ok. cbn [Py.bind].
  repeat match goal with
         | |- Py.bind ?m _ = _ -> _ =>
             destruct m; cbn [Py.bind]; [discriminate |]
         end.
  intros H. injection H as <-. do 3 eexists. reflexivity.
Qed.

Lemma traverse_diff_keys (fs ds : list json) :
  Py.traverse diff_entry fs = Py.ok ds ->
  Forall (fun d => keys d = ["path"; "diff"]) ds.
Proof.
  revert ds. induction fs as [| f fs IH]; intros ds; cbn [Py.traverse].
  - intros H. injection H as <-. constructor.
  - destruct (diff_entry f) as [| d] eqn:Hd; [discriminate |]. cbn [Py.bind].
    destruct (Py.traverse diff_entry fs) as [| ds']; [discriminate |].
    cbn [Py.bind]. intros H. injection H as <-.
    constructor; [| apply IH; reflexivity].
    destruct f as [| | | | | kv]; try discriminate.
    unfold diff_entry in Hd. rewrite !get_object in Hd.
    injection Hd as <-. reflexivity.
Qed.

Lemma fetch_commit_diff_keys (py_repr : json -> string) (fuel : nat)
    (repo : string) (sha : json) (w w' : world) (diffs : list json) :
  fetch_commit_diff py_repr fuel repo sha w = Ret diffs w' ->
  Forall (fun d => keys d = ["path"; "diff"]) diffs.
Proof.
  unfold fetch_commit_diff.
  destruct (negb (Py.truthy sha)).
  - intros H. injection H as <- _. constructor.
  - unfold bind at 1.
    destruct (fetch_json fuel (JStr (commit_url py_repr repo sha)) w)
      as [data w1 | |]; try discriminate.
    unfold bind, eval.
    destruct (Py.bind (Py.get data "files" (JList [])) (fun files =>
                Py.iter files)) as [| files]; [discriminate |].
    destruct (Py.traverse diff_entry files) as [| ds] eqn:Ht; [discriminate |].
    intros H. injection H as <- _. exact (traverse_diff_keys files ds Ht).
Qed.

(** X13: every record [process_issue] returns has the same seventeen
    keys in the same order; its [comments] is a list, its [code_diff] a
    list of records with the two keys [path] and [diff], and its [repo]
    the repository parsed from the link. *)
Theorem process_issue_record_shape :
  forall py_repr fuel issue scrapLink w r w',
    process_issue py_repr fuel issue scrapLink w = Ret r w' ->
    keys r = ["issue_id"; "title"; "body"; "state"; "created_at";
              "updated_at"; "closed_at"; "labels"; "author"; "assignee";
              "comments_count"; "comments"; "code_diff"; "events_url";
              "comments_url"; "html_url"; "repo"] /\
    (exists comments, field "comments" r = JList comments) /\
    (exists diffs,
        field "code_diff" r = JList diffs /\
        Forall (fun d => keys d = ["path"; "diff"]) diffs) /\
    (exists repo, repo_of scrapLink = Py.ok repo /\ field "repo" r = JStr repo).
Proof.
  intros py_repr fuel issue scrapLink w r w' Hrun.
  apply process_issue_inv in Hrun
    as (repo & sha & comments & diffs & w1 & w2 & Hrepo & _ & Hc & Hd & Hr).
  apply enriched_inv in Hr as (labels & author & assignee & ->).
  split; [reflexivity |]. split; [| split].
  - unfold fetch_comments, bind, ret in Hc.
    destruct (fetch_json fuel (field "comments_url" issue) w1)
      as [data w3 | |]; try discriminate.
    injection Hc as <- _. destruct data; eexists; reflexivity.
  - exists diffs. split; [reflexivity |].
    exact (fetch_commit_diff_keys _ _ _ _ _ _ _ Hd).
  - exists repo. split; [exact Hrepo | reflexivity].
Qed.

Lemma process_issue_record_shape_witness :
  exists r w',
    process_issue sample_repr 1 (sample_issue 1) sample_link three_issues =
      Ret r w' /\
    field "repo" r = JStr "octo/demo" /\
    field "code_diff" r =
      JList [JObj [("path", JStr "a.py"); ("diff", JStr "@@ -1 +1 @@")]].
Proof.
  destruct (process_issue sample_repr 1 (sample_issue 1) sample_link
              three_issues) as [r w' | e w' |] eqn:Hrun.
  - destruct (process_issue_record_shape sample_repr 1 (sample_issue 1)
                sample_link three_issues r w' Hrun) as (_ & _ & _ & _).
    exists r, w'. split; [reflexivity |].
    vm_compute in Hrun. injection Hrun as <- _. split; reflexivity.
  - vm_compute in Hrun. discriminate Hrun.
  - vm_compute in Hrun. discriminate Hrun.
Defined.

(** X14: [process_issue] checks its input before it touches the
    network.  On an issue record without [number], on a link without
    [repos/], and on an issue record without [events_url], it raises
    ([KeyError], [IndexError], [KeyError]) in the world it started
    from: no request has been made. *)
Theorem process_issue_raises_before_any_request :
  forall py_repr fuel issue scrapLink w,
    is_object issue = true ->
    (has_key "number" issue = false ->
     process_issue py_repr fuel issue scrapLink w =
     Exc (KeyError "number") w) /\
    (has_key "number" issue = true ->
     Py.infix "repos/" scrapLink = false ->
     process_issue py_repr fuel issue scrapLink w = Exc IndexError w) /\
    (forall repo,
        has_key "number" issue = true ->
        repo_of scrapLink = Py.ok repo ->
        has_key "events_url" issue = false ->
        process_issue py_repr fuel issue scrapLink w =
        Exc (KeyError "events_url") w).
Proof.
  intros py_repr fuel issue scrapLink w Hobj.
  destruct issue as [| | | | | kv]; try discriminate.
  assert (Hmiss : forall k, has_key k (JObj kv) = false ->
                  Py.subscript (JObj kv) k = Py.raise (KeyError k)).
  { intros k. unfold has_key, Py.subscript.
    destruct (Py.lookup k kv); [discriminate | reflexivity]. }
  split; [| split].
  - intros Hn. unfold process_issue, bind. rewrite (Hmiss _ Hn). reflexivity.
  - intros Hn Hlink. unfold process_issue, bind.
    rewrite (subscript_has_key _ _ Hn). unfold Py.ok. cbn [eval].
    replace (repo_of scrapLink) with (@inl exn string IndexError);
      [reflexivity |].
    unfold repo_of, Py.split.
    assert (Hcut : forall s, Py.infix "repos/" s = false ->
                   Py.cut "repos/" s = None).
    { induction s as [| c s IH]; [reflexivity |].
      cbn [Py.infix Py.cut]. intros H.
      apply orb_false_elim in H as [Hp Hi]. rewrite Hp, (IH Hi). reflexivity. }
    destruct (String.length scrapLink); cbn [Py.split_upto];
      [| rewrite (Hcut _ Hlink)]; reflexivity.
  - intros repo Hn Hrepo He. unfold process_issue, bind.
    rewrite (subscript_has_key _ _ Hn), Hrepo, (Hmiss _ He). reflexivity.
Qed.

Lemma process_issue_raises_before_any_request_witness :
  process_issue sample_repr 1 (JObj [("number", JNum 7)])
    "https://api.github.com/octo/demo/issues" unplugged =
    Exc IndexError unplugged /\
  process_issue sample_repr 1 (JObj [("number", JNum 7)]) sample_link
    unplugged = Exc (KeyError "events_url") unplugged.
Proof.
  destruct (process_issue_raises_before_any_request sample_repr 1
              (JObj [("number", JNum 7)])
              "https://api.github.com/octo/demo/issues" unplugged eq_refl)
    as (_ & Hlink & _).
  destruct (process_issue_raises_before_any_request sample_repr 1
              (JObj [("number", JNum 7)]) sample_link unplugged eq_refl)
    as (_ & _ & Hevents).
  split.
  - apply Hlink; reflexivity.
  - apply (Hevents "octo/demo"); reflexivity.
Defined.

(** X15: in a returned record, [title] and [body] are the empty string
    and [comments_count] is 0 only when the issue lacks the key: a
    value that is present is copied as it is, so a [null] body stays
    [None].  [issue_id], [state], the timestamps and the three URLs are
    the issue's values, [None] when absent. *)
Theorem process_issue_copies_fields :
  forall py_repr fuel issue scrapLink w r w',
    process_issue py_repr fuel issue scrapLink w = Ret r w' ->
    field "title" r = field_or "title" (JStr "") issue /\
    field "body" r = field_or "body" (JStr "") issue /\
    field "comments_count" r = field_or "comments" (JNum 0) issue /\
    (has_key "body" issue = true -> field "body" r = field "body" issue) /\
    Forall (fun kk => field (fst kk) r = field (snd kk) issue)
      [("issue_id", "number"); ("state", "state");
       ("created_at", "created_at"); ("updated_at", "updated_at");
       ("closed_at", "closed_at"); ("events_url", "events_url");
       ("comments_url", "comments_url"); ("html_url", "html_url")].
Proof.
  intros py_repr fuel issue scrapLink w r w' Hrun.
  apply process_issue_inv in Hrun
    as (repo & sha & comments & diffs & w1 & w2 & _ & _ & _ & _ & Hr).
  apply enriched_inv in Hr as (labels & author & assignee & ->).
  split; [reflexivity |]. split; [reflexivity |]. split; [reflexivity |].
  split; [| repeat constructor].
  intros Hbody. cbn [field Py.lookup String.eqb Ascii.eqb Bool.eqb].
  destruct issue; try discriminate. unfold has_key in Hbody.
  unfold field_or, field. destruct (Py.lookup "body" kv);
    [reflexivity | discriminate].
Qed.

Lemma process_issue_copies_fields_witness :
  exists r w',
    process_issue sample_repr 1
      (JObj [("number", JNum 7); ("body", JNull);
             ("events_url", JNull); ("comments_url", JNull)])
      sample_link unplugged = Ret r w' /\
    field "body" r = JNull /\ field "title" r = JStr "".
Proof.
  destruct (process_issue sample_repr 1
              (JObj [("number", JNum 7); ("body", JNull);
                     ("events_url", JNull); ("comments_url", JNull)])
              sample_link unplugged) as [r w' | e w' |] eqn:Hrun.
  - destruct (process_issue_copies_fields sample_repr 1 _ sample_link
                unplugged r w' Hrun) as (Htitle & _ & _ & Hbody & _).
    exists r, w'. split; [reflexivity |].
    split; [apply Hbody; reflexivity | exact Htitle].
  - vm_compute in Hrun. discriminate Hrun.
  - vm_compute in Hrun. discriminate Hrun.
Defined.

(** [process_issue] on an issue that has the three subscripted keys,
    its three lookups given: what is left is the record. *)
Lemma process_issue_run_keys (py_repr : json -> string) (fuel : nat)
    (issue : json) (scrapLink repo : string) (w w1 w2 w3 : world)
    (sha comments : json) (diffs : list json) :
  has_key "number" issue = true ->
  has_key "events_url" issue = true ->
  has_key "comments_url" issue = true ->
  repo_of scrapLink = Py.ok repo ->
  fetch_closing_sha fuel (field "events_url" issue) w = Ret sha w1 ->
  fetch_comments fuel (field "comments_url" issue) w1 = Ret comments w2 ->
  fetch_commit_diff py_repr fuel repo sha w2 = Ret diffs w3 ->
  process_issue py_repr fuel issue scrapLink w =
  eval (enriched issue comments diffs repo) w3.
Proof.
  intros Hn He Hc Hrepo Hsha Hcomments Hdiffs.
  unfold process_issue, bind.
  rewrite (subscript_has_key issue "number" Hn),
    (subscript_has_key issue "events_url" He),
    (subscript_has_key issue "comments_url" Hc), Hrepo.
  unfold Py.ok. cbn [eval]. rewrite Hsha, Hcomments, Hdiffs. reflexivity.
Qed.

(** X16: the default of [issue.get("user", {})] covers a missing key
    only.  An issue whose [user] is present but not a record ([null],
    the author's account being gone) makes [process_issue] raise
    [AttributeError], after its three lookups have been made; its
    labels, if any, are a list of records. *)
Theorem process_issue_raises_on_null_user :
  forall py_repr fuel kv scrapLink repo w sha w1 comments w2 diffs w3 u,
    has_key "number" (JObj kv) = true ->
    has_key "events_url" (JObj kv) = true ->
    has_key "comments_url" (JObj kv) = true ->
    repo_of scrapLink = Py.ok repo ->
    fetch_closing_sha fuel (field "events_url" (JObj kv)) w = Ret sha w1 ->
    fetch_comments fuel (field "comments_url" (JObj kv)) w1 =
      Ret comments w2 ->
    fetch_commit_diff py_repr fuel repo sha w2 = Ret diffs w3 ->
    forallb is_object (entries (field_or "labels" (JList []) (JObj kv))) =
      true ->
    is_list (field_or "labels" (JList []) (JObj kv)) = true ->
    Py.lookup "user" kv = Some u ->
    is_object u = false ->
    process_issue py_repr fuel (JObj kv) scrapLink w = Exc AttributeError w3.
Proof.
  intros py_repr fuel kv scrapLink repo w sha w1 comments w2 diffs w3 u
    Hn He Hc Hrepo Hsha Hcomments Hdiffs Hlabels Hlist Huser Hu.
  rewrite (process_issue_run_keys py_repr fuel (JObj kv) scrapLink repo
             w w1 w2 w3 sha comments diffs Hn He Hc Hrepo Hsha Hcomments
             Hdiffs).
  unfold enriched. rewrite !get_object. unfold Py.ok. cbn [Py.bind].
  cbn [field_or] in Hlabels, Hlist.
  destruct (match Py.lookup "labels" kv with
            | Some v => v
            | None => JList []
            end) as [| | | | ls |]; try discriminate.
  cbn [entries] in Hlabels. cbn [Py.iter Py.ok Py.bind].
  rewrite (traverse_names ls Hlabels). unfold Py.ok. cbn [Py.bind].
  rewrite Huser. destruct u; try discriminate; reflexivity.
Qed.

Lemma process_issue_raises_on_null_user_witness :
  exists w3,
    process_issue sample_repr 1 (ghost_issue 7) sample_link closed_by_hand =
    Exc AttributeError w3.
Proof.
  eexists.
  apply (process_issue_raises_on_null_user sample_repr 1 _ sample_link
           "octo/demo" closed_by_hand JNull
           (emit (Request (sample_link ++ "/7/events")) closed_by_hand)
           (JList [])
           (emit (Request (sample_link ++ "/7/comments"))
              (emit (Request (sample_link ++ "/7/events")) closed_by_hand))
           []
           (emit (Request (sample_link ++ "/7/comments"))
              (emit (Request (sample_link ++ "/7/events")) closed_by_hand))
           JNull); reflexivity.
Defined.

(** ** More on the orchestrator *)

Lemma gather_inv {A : Type} (tasks : list (M A)) :
  forall w rs w',
    gather tasks w = Ret rs w' ->
    Forall2 (fun t r => exists wa wb, t wa = Ret r wb) tasks rs.
Proof.
  induction tasks as [| t tasks IH]; intros w rs w'; cbn [gather].
  - intros H. injection H as <- _. constructor.
  - unfold bind at 1. destruct (t w) as [r w1 | |] eqn:Ht; try discriminate.
    unfold bind at 1.
    destruct (gather tasks w1) as [rs' w2 | |] eqn:Hg; try discriminate.
    intros H. injection H as <- _.
    constructor; [exists w, w1; exact Ht | exact (IH _ _ _ Hg)].
Qed.

(** The steps of a run of [scrapIssues] that returns. *)
Lemma scrapIssues_inv (py_repr : json -> string) (fuel : nat)
    (scrapLink : string) (w w' : world) (rs : list json) :
  scrapIssues py_repr fuel scrapLink w = Ret rs w' ->
  exists issues w0,
    fetch_closed_issues fuel scrapLink w = Ret issues w0 /\
    ((issues = [] /\
      exists repo, repo_of scrapLink = Py.ok repo /\ rs = [placeholder repo])
     \/
     (issues <> [] /\
      Forall2 (fun issue r =>
                 exists wa wb,
                   process_issue py_repr fuel issue scrapLink wa = Ret r wb)
        issues rs)).
Proof.
  unfold scrapIssues, bind at 1.
  destruct (fetch_closed_issues fuel scrapLink w) as [issues w0 | |];
    try discriminate.
  unfold bind at 1.
  destruct (gather _ w0) as [results w1 | |] eqn:Hg; try discriminate.
  apply gather_inv in Hg. intros H. exists issues, w0.
  split; [reflexivity |]. destruct results as [| r results].
  - left. inversion Hg as [Hi |]. apply eq_sym, map_eq_nil in Hi.
    split; [exact Hi |]. unfold bind, eval in H.
    destruct (repo_of scrapLink) as [| repo]; [discriminate |].
    injection H as <- _. exists repo. auto.
  - right. injection H as <- _. split.
    + intros ->. inversion Hg.
    + clear - Hg. remember (r :: results) as rs eqn:E. clear E.
      revert rs Hg. induction issues as [| issue issues IH]; intros rs Hg;
        inversion Hg; subst; constructor; auto.
Qed.

(** X17: whatever the API serves, a run of [scrapIssues] that returns
    yields at least one record and at most 150. *)
Theorem scrapIssues_between_1_and_150 :
  forall py_repr fuel scrapLink w rs w',
    scrapIssues py_repr fuel scrapLink w = Ret rs w' ->
    (1 <= List.length rs <= 150)%nat.
Proof.
  intros py_repr fuel scrapLink w rs w' Hrun.
  apply scrapIssues_inv in Hrun
    as (issues & w0 & Hfound & [(-> & repo & _ & ->) | (Hne & Hall)]).
  - cbn. lia.
  - apply closed_issues_loop_result in Hfound as (more & Hl & _).
    pose proof (firstn_le_length 150 ([] ++ more)%list) as Hle.
    rewrite <- Hl in Hle. rewrite <- (Forall2_length Hall).
    destruct issues; [contradiction | cbn in *; lia].
Qed.

Lemma scrapIssues_between_1_and_150_witness :
  exists rs w',
    scrapIssues sample_repr 1 sample_link three_issues = Ret rs w' /\
    (1 <= List.length rs <= 150)%nat.
Proof.
  destruct (scrapIssues sample_repr 1 sample_link three_issues)
    as [rs w' | e w' |] eqn:Hrun.
  - exists rs, w'. split; [reflexivity |].
    exact (scrapIssues_between_1_and_150 sample_repr 1 sample_link
             three_issues rs w' Hrun).
  - vm_compute in Hrun. discriminate Hrun.
  - vm_compute in Hrun. discriminate Hrun.
Defined.

(** X18: a run of [scrapIssues] returns only for a link that contains
    [repos/], and every record it returns, the placeholder included,
    carries the same [repo]: the one parsed from that link. *)
Theorem scrapIssues_one_repo :
  forall py_repr fuel scrapLink w rs w',
    scrapIssues py_repr fuel scrapLink w = Ret rs w' ->
    exists repo,
      repo_of scrapLink = Py.ok repo /\
      Forall (fun r => field "repo" r = JStr repo) rs.
Proof.
  intros py_repr fuel scrapLink w rs w' Hrun.
  apply scrapIssues_inv in Hrun
    as (issues & w0 & _ & [(-> & repo & Hrepo & ->) | (Hne & Hall)]).
  - exists repo. split; [exact Hrepo |]. repeat constructor.
  - destruct Hall as [| issue r issues rs (wa & wb & Hr) Hall];
      [contradiction |].
    pose proof Hr as Hr0.
    apply process_issue_inv in Hr
      as (repo & sha & comments & diffs & w1 & w2 & Hrepo & _ & _ & _ & He).
    exists repo. split; [exact Hrepo |].
    constructor.
    + apply enriched_inv in He as (l & a & b & ->). reflexivity.
    + clear - Hall Hrepo. induction Hall as [| i r' iss rs' (wa & wb & Hr) _ IH];
        constructor; [| exact IH].
      apply process_issue_inv in Hr
        as (repo' & sha & comments & diffs & w1 & w2 & Hrepo' & _ & _ & _ & He).
      rewrite Hrepo in Hrepo'. injection Hrepo' as <-.
      apply enriched_inv in He as (l & a & b & ->). reflexivity.
Qed.

Lemma scrapIssues_one_repo_witness :
  exists rs w',
    scrapIssues sample_repr 1 sample_link three_issues = Ret rs w' /\
    Forall (fun r => field "repo" r = JStr "octo/demo") rs.
Proof.
  destruct (scrapIssues sample_repr 1 sample_link three_issues)
    as [rs w' | e w' |] eqn:Hrun.
  - destruct (scrapIssues_one_repo sample_repr 1 sample_link three_issues
                rs w' Hrun) as (repo & Hrepo & Hall).
    exists rs, w'. split; [reflexivity |].
    vm_compute in Hrepo. injection Hrepo as <-. exact Hall.
  - vm_compute in Hrun. discriminate Hrun.
  - vm_compute in Hrun. discriminate Hrun.
Defined.

(** ** Outcomes that do not depend on the schedule *)

Lemma stateless_same_server (w1 w2 : world) :
  stateless w1 -> server w2 = server w1 -> stateless w2.
Proof. intros H E h1 h2 u. rewrite E. apply H. Qed.

Lemma steady_ret {A : Type} (a : A) : steady (ret a).
Proof. split; [intros w | intros w1 w2 _ _]; reflexivity. Qed.

Lemma steady_eval {A : Type} (x : py A) : steady (eval x).
Proof. split; [intros w | intros w1 w2 _ _]; destruct x; reflexivity. Qed.

Lemma steady_hang {A : Type} : steady (fun _ : world => @Hang A).
Proof. split; [intros w | intros w1 w2 _ _]; exact I. Qed.

Lemma steady_bind {A B : Type} (m : M A) (k : A -> M B) :
  steady m -> (forall a, steady (k a)) -> steady (bind m k).
Proof.
  intros [Hs Ha] Hk. split.
  - intros w. unfold bind. specialize (Hs w).
    destruct (m w) as [a w' | e w' |]; cbn [same_server] in *; auto.
    destruct (Hk a) as [Hks _]. specialize (Hks w').
    destruct (k a w'); cbn [same_server] in *; congruence.
  - intros w1 w2 Hst E. unfold bind. specialize (Ha w1 w2 Hst E).
    pose proof (Hs w1) as H1. pose proof (Hs w2) as H2.
    destruct (m w1) as [a w1' | e w1' |], (m w2) as [b w2' | e' w2' |];
      cbn [agree same_server] in *; try contradiction; auto.
    subst b. destruct (Hk a) as [_ Hka]. apply Hka.
    + exact (stateless_same_server w1 w1' Hst H1).
    + congruence.
Qed.

Lemma fetch_json_same_server (fuel : nat) :
  forall url w, same_server w (fetch_json fuel url w).
Proof.
  induction fuel as [| fuel IH]; intros url w; cbn [fetch_json]; [exact I |].
  destruct url as [| | | u | |]; try reflexivity.
  destruct (server w (trace w) u) as [| resp]; [reflexivity |].
  assert (Hbody : same_server w (body_of (JStr u) resp (emit (Request u) w))).
  { unfold body_of, failed. destruct (400 <=? status resp)%Z; [reflexivity |].
    destruct (payload resp); reflexivity. }
  destruct (status resp =? 403)%Z; [| exact Hbody].
  destruct (rate_limit_reset resp) as [reset |]; [| exact Hbody].
  destruct (negb (reset =? "")); [| exact Hbody].
  destruct (Py.int reset) as [r |]; [| reflexivity].
  specialize (IH (JStr u)
                (sleep (Z.max (r - loop_time (emit (Request u) w)) 2)
                   (emit (Request u) w))).
  destruct (fetch_json fuel (JStr u) _); cbn [same_server] in *; exact IH.
Qed.

Lemma fetch_json_agree (fuel : nat) :
  forall url w1 w2,
    stateless w1 -> server w2 = server w1 ->
    agree (fetch_json fuel url w1) (fetch_json fuel url w2).
Proof.
  induction fuel as [| fuel IH]; intros url w1 w2 Hst E; cbn [fetch_json];
    [exact I |].
  destruct url as [| | | u | |]; try reflexivity.
  rewrite E, (Hst (trace w2) (trace w1) u).
  destruct (server w1 (trace w1) u) as [| resp]; [reflexivity |].
  assert (Hbody : agree (body_of (JStr u) resp (emit (Request u) w1))
                        (body_of (JStr u) resp (emit (Request u) w2))).
  { unfold body_of, failed. destruct (400 <=? status resp)%Z; [reflexivity |].
    destruct (payload resp); reflexivity. }
  destruct (status resp =? 403)%Z; [| exact Hbody].
  destruct (rate_limit_reset resp) as [reset |]; [| exact Hbody].
  destruct (negb (reset =? "")); [| exact Hbody].
  destruct (Py.int reset) as [r |]; [| reflexivity].
  apply IH; [intros h1 h2 v; exact (Hst h1 h2 v) | exact E].
Qed.

Lemma steady_fetch_json (fuel : nat) (url : json) :
  steady (fetch_json fuel url).
Proof.
  split; [apply fetch_json_same_server | apply fetch_json_agree].
Qed.

Lemma steady_fetch_closing_sha (fuel : nat) (url : json) :
  steady (fetch_closing_sha fuel url).
Proof.
  apply steady_bind; [apply steady_fetch_json |].
  intros events. destruct events; try apply steady_ret. apply steady_eval.
Qed.

Lemma steady_fetch_comments (fuel : nat) (url : json) :
  steady (fetch_comments fuel url).
Proof.
  apply steady_bind; [apply steady_fetch_json | intros data; apply steady_ret].
Qed.

Lemma steady_fetch_commit_diff (py_repr : json -> string) (fuel : nat)
    (repo : string) (sha : json) :
  steady (fetch_commit_diff py_repr fuel repo sha).
Proof.
  unfold fetch_commit_diff. destruct (negb (Py.truthy sha));
    [apply steady_ret |].
  apply steady_bind; [apply steady_fetch_json | intros data].
  apply steady_bind; [apply steady_eval | intros files; apply steady_eval].
Qed.

Lemma steady_process_issue (py_repr : json -> string) (fuel : nat)
    (issue : json) (scrapLink : string) :
  steady (process_issue py_repr fuel issue scrapLink).
Proof.
  unfold process_issue.
  apply steady_bind; [apply steady_eval | intros issue_id].
  apply steady_bind; [apply steady_eval | intros repo].
  apply steady_bind; [apply steady_eval | intros events_url].
  apply steady_bind; [apply steady_eval | intros comments_url].
  apply steady_bind; [apply steady_fetch_closing_sha | intros sha].
  apply steady_bind; [apply steady_fetch_comments | intros comments].
  apply steady_bind; [apply steady_fetch_commit_diff | intros diffs].
  apply steady_eval.
Qed.

Lemma steady_closed_issues_loop (rounds : nat) :
  forall fuel scrapLink page acc,
    steady (closed_issues_loop rounds fuel scrapLink page acc).
Proof.
  induction rounds as [| rounds IH]; intros fuel scrapLink page acc;
    cbn [closed_issues_loop];
    destruct (List.length acc <? 150)%nat; try apply steady_ret;
    [apply steady_hang |].
  apply steady_bind; [apply steady_fetch_json | intros issues].
  destruct issues as [| | | | l |]; try apply steady_ret.
  destruct l as [| x l]; [apply steady_ret |].
  apply steady_bind; [apply steady_eval | intros filtered].
  destruct (List.length (x :: l) <? 100)%nat; [apply steady_ret | apply IH].
Qed.

(** The walker leaves the API as it found it. *)
Lemma fetch_closed_issues_same_server (fuel : nat) (scrapLink : string)
    (w w0 : world) (issues : list json) :
  fetch_closed_issues fuel scrapLink w = Ret issues w0 ->
  server w0 = server w.
Proof.
  intros H.
  pose proof (proj1 (steady_closed_issues_loop fuel fuel scrapLink 1 []) w)
    as Hs.
  unfold fetch_closed_issues in H. rewrite H in Hs. exact Hs.
Qed.

(** Against a stateless API an enrichment that returns from one world
    returns the same record from any other. *)
Lemma process_issue_returns_anywhere (py_repr : json -> string) (fuel : nat)
    (issue : json) (scrapLink : string) (w0 w : world) (r : json) :
  stateless w0 -> server w = server w0 ->
  (exists w', process_issue py_repr fuel issue scrapLink w0 = Ret r w') ->
  exists w',
    process_issue py_repr fuel issue scrapLink w = Ret r w' /\
    server w' = server w0.
Proof.
  intros Hst E [w0' H0].
  destruct (steady_process_issue py_repr fuel issue scrapLink) as [Hs Ha].
  specialize (Ha w0 w Hst E). specialize (Hs w). rewrite H0 in Ha.
  destruct (process_issue py_repr fuel issue scrapLink w) as [b w' | |];
    cbn [agree same_server] in *; try contradiction.
  subst b. exists w'. split; [reflexivity | congruence].
Qed.

(** And one that raises raises the same exception. *)
Lemma process_issue_raises_anywhere (py_repr : json -> string) (fuel : nat)
    (issue : json) (scrapLink : string) (w0 w : world) (e : exn) :
  stateless w0 -> server w = server w0 ->
  (exists w', process_issue py_repr fuel issue scrapLink w0 = Exc e w') ->
  exists w', process_issue py_repr fuel issue scrapLink w = Exc e w'.
Proof.
  intros Hst E [w0' H0].
  destruct (steady_process_issue py_repr fuel issue scrapLink) as [_ Ha].
  specialize (Ha w0 w Hst E). rewrite H0 in Ha.
  destruct (process_issue py_repr fuel issue scrapLink w) as [| e' w' |];
    cbn [agree] in *; try contradiction.
  subst e'. exists w'. reflexivity.
Qed.


Lemma gather_raises (py_repr : json -> string) (fuel : nat)
    (scrapLink : string) (w0 : world) (bad : json) (after : list json)
    (e : exn) :
  stateless w0 ->
  (exists w', process_issue py_repr fuel bad scrapLink w0 = Exc e w') ->
  forall before,
    Forall (fun issue =>
              exists r w',
                process_issue py_repr fuel issue scrapLink w0 = Ret r w')
      before ->
    forall w,
      server w = server w0 ->
      exists w',
        gather (map (fun issue => process_issue py_repr fuel issue scrapLink)
                  (before ++ bad :: after)) w = Exc e w'.
Proof.
  intros Hst Hbad before Hbefore.
  induction Hbefore as [| issue before (r & Hr) _ IH]; intros w E;
    cbn [app map gather]; unfold bind at 1.
  - destruct (process_issue_raises_anywhere py_repr fuel bad scrapLink
                w0 w e Hst E Hbad) as [w' ->].
    exists w'. reflexivity.
  - destruct (process_issue_returns_anywhere py_repr fuel issue scrapLink
                w0 w r Hst E Hr) as (w1 & -> & E1).
    destruct (IH w1 E1) as [w' Hrest]. exists w'.
    unfold bind at 1. rewrite Hrest. reflexivity.
Qed.





(** X19: an exception in one enrichment aborts the harvest.  Against
    an API whose replies depend on the URL alone, when the enrichment
    of one discovered issue raises and that of every other discovered
    issue returns, [scrapIssues] raises that exception: the records of
    the other issues are not returned, [gather] being called without
    [return_exceptions]. *)
Theorem scrapIssues_aborts_on_exception :
  forall py_repr fuel scrapLink w before bad after w0 e,
    stateless w ->
    fetch_closed_issues fuel scrapLink w =
      Ret (before ++ bad :: after)%list w0 ->
    Forall (fun issue =>
              exists r w',
                process_issue py_repr fuel issue scrapLink w0 = Ret r w')
      (before ++ after)%list ->
    (exists w', process_issue py_repr fuel bad scrapLink w0 = Exc e w') ->
    exists w', scrapIssues py_repr fuel scrapLink w = Exc e w'.
Proof.
  intros py_repr fuel scrapLink w before bad after w0 e Hst Hfound Hothers
    Hbad.
  pose proof (fetch_closed_issues_same_server _ _ _ _ _ Hfound) as E0.
  pose proof (stateless_same_server w w0 Hst E0) as Hst0.
  apply Forall_app in Hothers as [Hbefore _].
  destruct (gather_raises py_repr fuel scrapLink w0 bad after e Hst0 Hbad
              before Hbefore w0 eq_refl) as [w' Hg].
  exists w'. unfold scrapIssues, bind at 1. rewrite Hfound.
  unfold bind at 1. rewrite Hg. reflexivity.
Qed.

Lemma scrapIssues_aborts_on_exception_witness :
  exists w',
    scrapIssues sample_repr 1 sample_link second_issue_ghost =
    Exc AttributeError w'.
Proof.
  apply (scrapIssues_aborts_on_exception sample_repr 1 sample_link
           second_issue_ghost [sample_issue 1] (ghost_issue 2)
           [sample_issue 3]
           (emit (Request (page_url sample_link 1)) second_issue_ghost)
           AttributeError).
  - intros h1 h2 u. reflexivity.
  - reflexivity.
  - constructor; [do 2 eexists; vm_compute; reflexivity |].
    constructor; [do 2 eexists; vm_compute; reflexivity |].
    constructor.
  - eexists. vm_compute. reflexivity.
Defined.

Lemma fetch_json_error (fuel : nat) (u : string) (w : world) :
  server w (trace w) u = Failure \/
  (exists resp, server w (trace w) u = Response resp /\
                (400 <= status resp)%Z /\ rate_limited resp = false) ->
  fetch_json (S fuel) (JStr u) w =
  Ret (JObj []) (emit (Log (JStr u)) (emit (Request u) w)).
Proof.
  intros [Hfail | (resp & Hs & Hge & Hrl)]; cbn [fetch_json].
  - rewrite Hfail. reflexivity.
  - rewrite Hs. unfold rate_limited in Hrl.
    assert (Hbody : body_of (JStr u) resp (emit (Request u) w) =
                    Ret (JObj []) (emit (Log (JStr u)) (emit (Request u) w))).
    { unfold body_of. apply Z.leb_le in Hge. rewrite Hge. reflexivity. }
    destruct (status resp =? 403)%Z; [| exact Hbody].
    destruct (rate_limit_reset resp) as [reset |]; [| exact Hbody].
    cbn [andb] in Hrl. rewrite Hrl. exact Hbody.
Qed.

(** X20: an API that cannot be reached does not make the harvest fail.
    When the request for page 1 meets a transport failure or an HTTP
    error that is not a rate-limited 403, [scrapIssues] returns the
    placeholder alone, after that single request and one printed
    error: to its caller the outage looks like a repository without
    closed issues. *)
Theorem scrapIssues_placeholder_on_outage :
  forall py_repr fuel scrapLink repo w,
    repo_of scrapLink = Py.ok repo ->
    server w (trace w) (page_url scrapLink 1) = Failure \/
    (exists resp,
        server w (trace w) (page_url scrapLink 1) = Response resp /\
        (400 <= status resp)%Z /\ rate_limited resp = false) ->
    scrapIssues py_repr (S fuel) scrapLink w =
    Ret [placeholder repo]
      (emit (Log (JStr (page_url scrapLink 1)))
         (emit (Request (page_url scrapLink 1)) w)).
Proof.
  intros py_repr fuel scrapLink repo w Hrepo Hdown.
  apply scrapIssues_empty; [| exact Hrepo].
  unfold fetch_closed_issues. cbn [closed_issues_loop List.length].
  change (0 <? 150)%nat with true. cbv iota. unfold bind at 1.
  rewrite (fetch_json_error fuel _ w Hdown). reflexivity.
Qed.

Lemma scrapIssues_placeholder_on_outage_witness :
  scrapIssues sample_repr 1 sample_link unplugged =
  Ret [placeholder "octo/demo"]
    (emit (Log (JStr (page_url sample_link 1)))
       (emit (Request (page_url sample_link 1)) unplugged)).
Proof.
  apply (scrapIssues_placeholder_on_outage sample_repr 0 sample_link
           "octo/demo" unplugged).
  - reflexivity.
  - left. reflexivity.
Defined.

(** ** The repository named by the link *)

Lemma substring_whole (s : string) : substring 0 (String.length s) s = s.
Proof. induction s as [| c s IH]; cbn; [| rewrite IH]; reflexivity. Qed.

Lemma prefix_split (p : string) :
  forall s,
    String.prefix p s = true ->
    s = p ++ substring (String.length p) (String.length s - String.length p) s.
Proof.
  induction p as [| a p IH]; intros s H.
  - cbn. rewrite Nat.sub_0_r, substring_whole. reflexivity.
  - destruct s as [| b s]; cbn in H; [discriminate |].
    destruct (ascii_dec a b) as [-> |]; [| discriminate].
    cbn. f_equal. exact (IH s H).
Qed.

Lemma prefix_extend (p : string) :
  forall x y, String.prefix p x = true -> String.prefix p (x ++ y) = true.
Proof.
  induction p as [| a p IH]; intros x y H;
    [destruct x; [destruct y |]; reflexivity |].
  destruct x as [| b x]; cbn in H; [discriminate |]. cbn.
  destruct (ascii_dec a b); [exact (IH x y H) | discriminate].
Qed.

Lemma prefix_self (p y : string) : String.prefix p (p ++ y) = true.
Proof.
  induction p as [| a p IH]; [destruct y; reflexivity |].
  cbn. destruct (ascii_dec a a); [exact IH | contradiction].
Qed.

Lemma append_empty_r (s : string) : s ++ "" = s.
Proof. induction s as [| c s IH]; cbn; [| rewrite IH]; reflexivity. Qed.

Lemma append_assoc (a b c : string) : (a ++ b) ++ c = a ++ b ++ c.
Proof. induction a as [| x a IH]; cbn; [| rewrite IH]; reflexivity. Qed.

Lemma length_append (a b : string) :
  String.length (a ++ b) = (String.length a + String.length b)%nat.
Proof. induction a as [| x a IH]; cbn; [| rewrite IH]; reflexivity. Qed.

Lemma cut_equation (sep s : string) :
  Py.cut sep s =
  if String.prefix sep s
  then Some ("", substring (String.length sep)
                   (String.length s - String.length sep) s)
  else match s with
       | EmptyString => None
       | String c s' =>
           match Py.cut sep s' with
           | Some (a, b) => Some (String c a, b)
           | None => None
           end
       end.
Proof. destruct s; reflexivity. Qed.

(** A cut splits the string around the separator. *)
Lemma cut_sound (sep : string) :
  forall s a b, Py.cut sep s = Some (a, b) -> s = a ++ sep ++ b.
Proof.
  induction s as [| c s IH]; intros a b; rewrite cut_equation.
  - destruct (String.prefix sep "") eqn:Hp; [| discriminate].
    intros H. injection H as <- <-. exact (prefix_split sep "" Hp).
  - destruct (String.prefix sep (String c s)) eqn:Hp.
    + intros H. injection H as <- <-. exact (prefix_split sep _ Hp).
    + destruct (Py.cut sep s) as [[a' b'] |]; [| discriminate].
      intros H. injection H as <- <-. cbn. f_equal. apply IH. reflexivity.
Qed.

(** No cut exactly when the separator does not occur. *)
Lemma cut_none (sep : string) :
  forall s, Py.cut sep s = None <-> Py.infix sep s = false.
Proof.
  induction s as [| c s IH]; rewrite cut_equation; cbn [Py.infix].
  - destruct (String.prefix sep ""); cbn; split; auto; discriminate.
  - destruct (String.prefix sep (String c s)); cbn [orb];
      [split; discriminate |].
    destruct (Py.cut sep s) as [[a b] |].
    + split; [discriminate |]. intros H. apply IH in H. discriminate H.
    + split; [intros _; apply IH; reflexivity | reflexivity].
Qed.

(** The cut is at the first occurrence: none lies in the text before. *)
Lemma cut_first (sep : string) :
  sep <> "" ->
  forall s a b, Py.cut sep s = Some (a, b) -> Py.infix sep a = false.
Proof.
  intros Hsep.
  assert (Hempty : Py.infix sep "" = false).
  { destruct sep; [contradiction | reflexivity]. }
  induction s as [| c s IH]; intros a b; rewrite cut_equation.
  - destruct (String.prefix sep ""); [| discriminate].
    intros H. injection H as <- _. exact Hempty.
  - destruct (String.prefix sep (String c s)) eqn:Hp.
    + intros H. injection H as <- _. exact Hempty.
    + destruct (Py.cut sep s) as [[a' b'] |] eqn:Hcut; [| discriminate].
      intros H. injection H as <- <-. cbn [Py.infix].
      rewrite (IH a' b' eq_refl), orb_false_r.
      destruct (String.prefix sep (String c a')) eqn:Hpa; [| reflexivity].
      apply (prefix_extend sep _ (sep ++ b')) in Hpa.
      cbn [append] in Hpa. rewrite <- (cut_sound sep s a' b' Hcut) in Hpa.
      congruence.
Qed.

(** The first item of a split. *)
Lemma split_upto_head (sep : string) :
  sep <> "" ->
  forall n s x l,
    (String.length s <= n)%nat ->
    Py.split_upto n sep s = x :: l ->
    exists post,
      s = x ++ post /\ Py.infix sep x = false /\
      (post = "" \/ String.prefix sep post = true).
Proof.
  intros Hsep n s x l Hn.
  assert (Hempty : Py.infix sep "" = false).
  { destruct sep; [contradiction | reflexivity]. }
  destruct n as [| n]; cbn [Py.split_upto].
  - intros H. injection H as <- _. destruct s; [| cbn in Hn; lia].
    exists "". auto.
  - destruct (Py.cut sep s) as [[a b] |] eqn:Hcut.
    + intros H. injection H as <- _. exists (sep ++ b).
      split; [exact (cut_sound sep s a b Hcut) |].
      split; [exact (cut_first sep Hsep s a b Hcut) |].
      right. apply prefix_self.
    + intros H. injection H as <- _. exists "".
      rewrite append_empty_r. split; [reflexivity |].
      split; [apply cut_none; exact Hcut | left; reflexivity].
Qed.

(** The second item of a split, when there is one. *)
Lemma split_second (sep : string) :
  sep <> "" ->
  forall s x,
    Py.item (Py.split sep s) 1 = Py.ok x ->
    exists pre post,
      s = pre ++ sep ++ x ++ post /\ Py.infix sep pre = false /\
      Py.infix sep x = false /\
      (post = "" \/ String.prefix sep post = true).
Proof.
  intros Hsep s x. unfold Py.split, Py.item.
  destruct (String.length s) as [| n] eqn:Hlen; cbn [Py.split_upto];
    [discriminate |].
  destruct (Py.cut sep s) as [[a b] |] eqn:Hcut; [| discriminate].
  cbn [nth_error].
  destruct (Py.split_upto n sep b) as [| y l] eqn:Hsplit; [discriminate |].
  cbn [nth_error]. intros H. injection H as <-.
  pose proof (cut_sound sep s a b Hcut) as Hs.
  assert (Hb : (String.length b <= n)%nat).
  { rewrite Hs, !length_append in Hlen.
    destruct sep; [contradiction | cbn in Hlen; lia]. }
  destruct (split_upto_head sep Hsep n b y l Hb Hsplit)
    as (post & Hbx & Hx & Hpost).
  exists a, post. rewrite <- Hbx.
  split; [exact Hs |]. split; [exact (cut_first sep Hsep s a b Hcut) |].
  split; assumption.
Qed.

(** X21: [repo_of], the expression
    [scrapLink.split("repos/")[1].split("/issues")[0]], raises
    [IndexError] exactly when the link does not contain [repos/];
    on every other link it returns a repository name. *)
Theorem repo_of_index_error :
  forall scrapLink,
    (Py.infix "repos/" scrapLink = false ->
     repo_of scrapLink = Py.raise IndexError) /\
    (Py.infix "repos/" scrapLink = true ->
     exists repo, repo_of scrapLink = Py.ok repo).
Proof.
  intros scrapLink. unfold repo_of, Py.split. split; intros H.
  - apply cut_none in H.
    destruct (String.length scrapLink); cbn [Py.split_upto];
      [| rewrite H]; reflexivity.
  - destruct (Py.cut "repos/" scrapLink) as [[a b] |] eqn:Hcut.
    2: { apply cut_none in Hcut. congruence. }
    destruct (String.length scrapLink) as [| n] eqn:Hlen.
    { destruct scrapLink; [discriminate Hcut | discriminate Hlen]. }
    cbn [Py.split_upto]. rewrite Hcut.
    assert (Hhead : forall m sep s, exists y l, Py.split_upto m sep s = y :: l).
    { intros m sep s. destruct m; cbn [Py.split_upto]; [eauto |].
      destruct (Py.cut sep s) as [[? ?] |]; eauto. }
    destruct (Hhead n "repos/" b) as (rest & l & ->).
    cbn [Py.item nth_error Py.ok Py.bind].
    destruct (Hhead (String.length rest) "/issues" rest) as (repo & l' & ->).
    exists repo. reflexivity.
Qed.

Lemma repo_of_index_error_witness :
  repo_of "https://github.com/octo/demo/issues" = Py.raise IndexError /\
  exists repo, repo_of sample_link = Py.ok repo.
Proof.
  split.
  - apply (proj1 (repo_of_index_error "https://github.com/octo/demo/issues")).
    reflexivity.
  - apply (proj2 (repo_of_index_error sample_link)). reflexivity.
Defined.

Lemma prefix_restrict (p : string) :
  forall x y,
    String.prefix p (x ++ y) = true ->
    (String.length p <= String.length x)%nat ->
    String.prefix p x = true.
Proof.
  induction p as [| a p IH]; intros x y H Hlen; [destruct x; reflexivity |].
  destruct x as [| b x]; [cbn in Hlen; lia |].
  cbn in H |- *. destruct (ascii_dec a b); [| discriminate].
  apply (IH x y H). cbn in Hlen. lia.
Qed.

Lemma substring_drop (p b : string) :
  substring (String.length p)
    (String.length (p ++ b) - String.length p) (p ++ b) = b.
Proof.
  induction p as [| a p IH]; cbn.
  - rewrite Nat.sub_0_r. apply substring_whole.
  - exact IH.
Qed.

(** The cut falls where the separator is written when it does not
    occur earlier, be it across the end of the text before. *)
Lemma cut_at (sep sep' : string) (last : ascii) :
  sep = sep' ++ String last "" ->
  forall pre b,
    Py.infix sep (pre ++ sep') = false ->
    Py.cut sep (pre ++ sep ++ b) = Some (pre, b).
Proof.
  intros Hsep pre b. induction pre as [| c pre IH]; intros Hno.
  - cbn [append]. rewrite cut_equation, prefix_self, substring_drop.
    reflexivity.
  - cbn [append Py.infix] in Hno. apply orb_false_elim in Hno as [Hp Hi].
    cbn [append]. rewrite cut_equation.
    destruct (String.prefix sep (String c (pre ++ sep ++ b))) eqn:Hp'.
    + exfalso.
      assert (Heq : String c (pre ++ sep ++ b) =
                    String c (pre ++ sep') ++ String last "" ++ b).
      { cbn [append]. f_equal. rewrite Hsep, !append_assoc. reflexivity. }
      rewrite Heq in Hp'. apply prefix_restrict in Hp'; [congruence |].
      cbn [String.length]. rewrite Hsep, !length_append. cbn. lia.
    + rewrite (IH Hi). reflexivity.
Qed.

Lemma infix_equation (k s : string) :
  Py.infix k s =
  String.prefix k s ||
  match s with
  | EmptyString => false
  | String _ s' => Py.infix k s'
  end.
Proof. destruct s; reflexivity. Qed.

(** A separator that is written in a text occurs in it. *)
Lemma infix_intro (sep : string) :
  forall a b, Py.infix sep (a ++ sep ++ b) = true.
Proof.
  induction a as [| c a IH]; intros b.
  - cbn [append]. rewrite infix_equation, prefix_self. reflexivity.
  - cbn [append Py.infix]. rewrite IH. apply orb_true_r.
Qed.

Lemma infix_split (sep s : string) :
  Py.infix sep s = true -> exists a b, s = a ++ sep ++ b.
Proof.
  intros H. destruct (Py.cut sep s) as [[a b] |] eqn:Hcut.
  - exists a, b. exact (cut_sound sep s a b Hcut).
  - apply cut_none in Hcut. congruence.
Qed.

Lemma infix_restrict (sep x y : string) :
  Py.infix sep (x ++ y) = false -> Py.infix sep x = false.
Proof.
  intros H. destruct (Py.infix sep x) eqn:Hx; [| reflexivity].
  apply infix_split in Hx as (a & b & ->).
  rewrite !append_assoc, infix_intro in H. discriminate H.
Qed.

(** No occurrence of the separator starts before the cut. *)
Lemma cut_minimal (sep : string) :
  forall s a b,
    Py.cut sep s = Some (a, b) ->
    forall a' b',
      s = a' ++ sep ++ b' -> (String.length a <= String.length a')%nat.
Proof.
  induction s as [| c s IH]; intros a b; rewrite cut_equation.
  - destruct (String.prefix sep ""); [| discriminate].
    intros H. injection H as <- _. intros a' b' _. apply Nat.le_0_l.
  - destruct (String.prefix sep (String c s)) eqn:Hp.
    + intros H. injection H as <- _. intros a' b' _. apply Nat.le_0_l.
    + destruct (Py.cut sep s) as [[a0 b0] |] eqn:Hcut; [| discriminate].
      intros H. injection H as <- <-. intros a' b' Hs.
      destruct a' as [| c' a'].
      * cbn [append] in Hs. rewrite Hs, prefix_self in Hp. discriminate Hp.
      * cbn [append] in Hs. injection Hs as _ Hs.
        cbn [String.length]. apply le_n_S. exact (IH a0 b0 eq_refl a' b' Hs).
Qed.

Lemma cut_first_cut (sep s a b : string) :
  Py.cut sep s = Some (a, b) <-> first_cut sep s a b.
Proof.
  split.
  - intros H. split; [exact (cut_sound sep s a b H) |].
    exact (cut_minimal sep s a b H).
  - intros [-> Hmin]. induction a as [| c a IH].
    + cbn [append]. rewrite cut_equation, prefix_self, substring_drop.
      reflexivity.
    + cbn [append]. rewrite cut_equation.
      destruct (String.prefix sep (String c (a ++ sep ++ b))) eqn:Hp.
      * apply prefix_split in Hp.
        specialize (Hmin "" _ Hp). cbn [String.length] in Hmin. lia.
      * rewrite IH; [reflexivity |].
        intros a0 b0 H. specialize (Hmin (String c a0) b0).
        cbn [append String.length] in Hmin. rewrite H in Hmin.
        specialize (Hmin eq_refl). lia.
Qed.

(** The first item of a split is the first piece, and nothing else. *)
Lemma split_upto_first_piece (sep : string) :
  sep <> "" ->
  forall n s x,
    (String.length s <= n)%nat ->
    (exists l, Py.split_upto n sep s = x :: l) <-> first_piece sep s x.
Proof.
  intros Hsep n s x Hn.
  assert (Hempty : Py.infix sep "" = false).
  { destruct sep; [contradiction | reflexivity]. }
  destruct n as [| n]; cbn [Py.split_upto].
  - destruct s; [| cbn in Hn; lia]. split.
    + intros [l H]. injection H as <- _. left. auto.
    + intros [[-> _] | [after [H _]]]; [exists []; reflexivity |].
      destruct x; [| discriminate H]. destruct sep; [contradiction |].
      discriminate H.
  - destruct (Py.cut sep s) as [[a b] |] eqn:Hcut; split.
    + intros [l H]. injection H as <- _. right. exists b.
      apply cut_first_cut. exact Hcut.
    + intros [[-> Hno] | [after Hfirst]].
      * apply cut_none in Hno. congruence.
      * apply cut_first_cut in Hfirst. rewrite Hcut in Hfirst.
        injection Hfirst as -> _. eexists. reflexivity.
    + intros [l H]. injection H as <- _. left.
      split; [reflexivity | apply cut_none; exact Hcut].
    + intros [[-> _] | [after Hfirst]]; [exists []; reflexivity |].
      apply cut_first_cut in Hfirst. congruence.
Qed.

(** The second item of a split is the first piece of what follows the
    first cut. *)
Lemma split_second_piece (sep : string) :
  sep <> "" ->
  forall s x,
    Py.item (Py.split sep s) 1 = Py.ok x <->
    exists pre after, first_cut sep s pre after /\ first_piece sep after x.
Proof.
  intros Hsep s x. unfold Py.split, Py.item. split.
  - destruct (String.length s) as [| n] eqn:Hlen; cbn [Py.split_upto];
      [discriminate |].
    destruct (Py.cut sep s) as [[a b] |] eqn:Hcut; [| discriminate].
    cbn [nth_error].
    destruct (Py.split_upto n sep b) as [| y l] eqn:Hsplit; [discriminate |].
    intros H. injection H as <-.
    exists a, b. split; [apply cut_first_cut; exact Hcut |].
    apply (split_upto_first_piece sep Hsep n b y).
    + pose proof (cut_sound sep s a b Hcut) as Hs.
      rewrite Hs, !length_append in Hlen.
      destruct sep; [contradiction | cbn in Hlen; lia].
    + exists l. exact Hsplit.
  - intros (pre & after & Hfirst & Hpiece).
    pose proof Hfirst as [Hs _]. apply cut_first_cut in Hfirst.
    destruct (String.length s) as [| n] eqn:Hlen.
    { rewrite Hs, !length_append in Hlen.
      destruct sep; [contradiction | cbn in Hlen; lia]. }
    cbn [Py.split_upto]. rewrite Hfirst.
    apply (split_upto_first_piece sep Hsep n after x) in Hpiece as [l ->];
      [reflexivity |].
    rewrite Hs, !length_append in Hlen.
    destruct sep; [contradiction | cbn in Hlen; lia].
Qed.

(** X22: the repository [repo_of] returns is cut out of the link, and
    nothing else is: [repo_of] returns [repo] exactly when [repo] is
    what comes before the first [/issues] (or the end) of the text
    that lies between the first [repos/] of the link and the next
    [repos/] (or the end of the link).  So the name returned follows
    the first [repos/], contains neither [repos/] nor [/issues], and
    ends at the end of the link or where the next [/issues] or
    [repos/] starts. *)
Theorem repo_of_sound :
  forall scrapLink repo,
    (repo_of scrapLink = Py.ok repo <->
     exists pre after rest,
       first_cut "repos/" scrapLink pre after /\
       first_piece "repos/" after rest /\
       first_piece "/issues" rest repo) /\
    (repo_of scrapLink = Py.ok repo ->
     exists pre post,
       scrapLink = pre ++ "repos/" ++ repo ++ post /\
       Py.infix "repos/" pre = false /\
       Py.infix "repos/" repo = false /\
       Py.infix "/issues" repo = false /\
       (post = "" \/ String.prefix "/issues" post = true \/
        String.prefix "repos/" post = true)).
Proof.
  intros scrapLink repo. split; [split |].
  - unfold repo_of.
    destruct (Py.item (Py.split "repos/" scrapLink) 1) as [| rest] eqn:H1;
      [discriminate |].
    cbn [Py.bind]. intros H0.
    apply split_second_piece in H1 as (pre & after & Hcut & Hrest);
      [| discriminate].
    exists pre, after, rest. split; [exact Hcut |]. split; [exact Hrest |].
    unfold Py.item, Py.split in H0.
    destruct (Py.split_upto (String.length rest) "/issues" rest)
      as [| y l] eqn:Hsplit; [discriminate |].
    cbn [nth_error] in H0. injection H0 as ->.
    apply (split_upto_first_piece "/issues") with (n := String.length rest);
      [discriminate | apply le_n | exists l; exact Hsplit].
  - intros (pre & after & rest & Hcut & Hrest & Hrepo). unfold repo_of.
    assert (H1 : Py.item (Py.split "repos/" scrapLink) 1 = Py.ok rest).
    { apply split_second_piece; [discriminate |]. exists pre, after. auto. }
    rewrite H1. cbn [Py.bind Py.ok]. unfold Py.item, Py.split.
    apply (split_upto_first_piece "/issues") with (n := String.length rest)
      in Hrepo as [l ->]; [reflexivity | discriminate | apply le_n].
  - unfold repo_of.
    destruct (Py.item (Py.split "repos/" scrapLink) 1) as [| rest] eqn:H1;
      [discriminate |].
    cbn [Py.bind]. intros H0.
    apply split_second in H1 as (pre & post1 & Hlink & Hpre & Hrest & Hpost1);
      [| discriminate].
    unfold Py.item, Py.split in H0.
    destruct (Py.split_upto (String.length rest) "/issues" rest)
      as [| y l] eqn:Hsplit; [discriminate |].
    cbn [nth_error] in H0. injection H0 as ->.
    apply split_upto_head in Hsplit as (post2 & Hrest' & Hrepo & Hpost2);
      [| discriminate | apply le_n].
    exists pre, (post2 ++ post1). subst rest.
    rewrite append_assoc in Hlink. split; [exact Hlink |].
    split; [exact Hpre |].
    split; [exact (infix_restrict "repos/" repo post2 Hrest) |].
    split; [exact Hrepo |].
    destruct Hpost2 as [-> | Hp2].
    + destruct Hpost1 as [-> | Hp1]; [left; reflexivity | right; right].
      exact Hp1.
    + right. left. apply prefix_extend. exact Hp2.
Qed.

Lemma repo_of_sound_witness :
  (exists pre after rest,
      first_cut "repos/" sample_link pre after /\
      first_piece "repos/" after rest /\
      first_piece "/issues" rest "octo/demo") /\
  (exists pre post,
      sample_link = pre ++ "repos/" ++ "octo/demo" ++ post /\
      Py.infix "repos/" pre = false /\
      Py.infix "repos/" "octo/demo" = false /\
      Py.infix "/issues" "octo/demo" = false /\
      (post = "" \/ String.prefix "/issues" post = true \/
       String.prefix "repos/" post = true)).
Proof.
  destruct (repo_of_sound sample_link "octo/demo") as [[Hcut _] Hshape].
  split; [exact (Hcut eq_refl) | exact (Hshape eq_refl)].
Defined.

(** X23: on a link written [host ++ "repos/" ++ repo ++ "/issues"],
    where [repos/] occurs neither before that place nor in
    [repo ++ "/issues"], and [/issues] does not occur before the one
    written, [repo_of] returns [repo]. *)
Theorem repo_of_canonical_link :
  forall host repo,
    Py.infix "repos/" (host ++ "repos") = false ->
    Py.infix "repos/" (repo ++ "/issues") = false ->
    Py.infix "/issues" (repo ++ "/issue") = false ->
    repo_of (host ++ "repos/" ++ repo ++ "/issues") = Py.ok repo.
Proof.
  intros host repo Hhost Hrest Hrepo. unfold repo_of, Py.split.
  pose proof (cut_at "repos/" "repos" "/" eq_refl host (repo ++ "/issues")
                Hhost) as Hcut1.
  pose proof (cut_at "/issues" "/issue" "s" eq_refl repo "" Hrepo) as Hcut2.
  apply cut_none in Hrest.
  destruct (String.length (host ++ "repos/" ++ repo ++ "/issues"))
    as [| n] eqn:Hlen.
  { rewrite !length_append in Hlen. cbn in Hlen. lia. }
  cbn [Py.split_upto]. rewrite Hcut1.
  replace (Py.item (host :: Py.split_upto n "repos/" (repo ++ "/issues")) 1)
    with (Py.ok (repo ++ "/issues")).
  2: { destruct n; cbn [Py.split_upto]; [| rewrite Hrest]; reflexivity. }
  cbn [Py.bind Py.ok].
  destruct (String.length (repo ++ "/issues")) as [| m] eqn:Hlen2.
  { rewrite length_append in Hlen2. cbn in Hlen2. lia. }
  cbn [Py.split_upto]. change "/issues" with ("/issues" ++ "") at 2.
  rewrite Hcut2. reflexivity.
Qed.

(** The link that [app.py] hands to the connector. *)
Lemma repo_of_canonical_link_witness :
  repo_of "https://api.github.com/repos/RocketChat/Rocket.Chat/issues" =
  Py.ok "RocketChat/Rocket.Chat".
Proof.
  apply (repo_of_canonical_link "https://api.github.com/"
           "RocketChat/Rocket.Chat"); reflexivity.
Defined.

(** ** The connector *)

Lemma traverse_total {A B : Type} (f : A -> py B) (l : list A) :
  Forall (fun x => exists y, f x = Py.ok y) l ->
  exists ys, Py.traverse f l = Py.ok ys.
Proof.
  induction 1 as [| x l [y Hy] _ [ys IH]]; [eexists; reflexivity |].
  cbn [Py.traverse]. rewrite Hy, IH. eexists. reflexivity.
Qed.

(** What a rendered row says of its record. *)
Lemma render_inv (py_repr : json -> string) (repo : string)
    (issue : json) (r : Connector.row) :
  Connector.render py_repr repo issue = Py.ok r ->
  Connector.url r =
    "https://github.com/" ++ repo ++ "/issues/" ++
    format py_repr (field "issue_id" issue) /\
  exists total_comments total_files_changed,
    Connector.len (field "comments" issue) = Py.ok total_comments /\
    Connector.len (field "code_diff" issue) = Py.ok total_files_changed /\
    Connector._metadata r =
      JObj [("issue_id", field "issue_id" issue);
            ("repo", JStr repo);
            ("title", field "title" issue);
            ("body", field "body" issue);
            ("comments", field "comments" issue);
            ("code_diff", field "code_diff" issue);
            ("total_comments", total_comments);
            ("total_files_changed", total_files_changed)].
Proof.
  unfold Connector.render.
  destruct (Py.subscript issue "issue_id") as [| issue_id] eqn:H1;
    [discriminate |].
  destruct (Py.subscript issue "title") as [| title] eqn:H2; [discriminate |].
  destruct (Py.subscript issue "body") as [| body] eqn:H3; [discriminate |].
  destruct (Py.subscript issue "comments") as [| comments] eqn:H4;
    [discriminate |].
  destruct (Py.subscript issue "code_diff") as [| diffs] eqn:H5;
    [discriminate |].
  apply subscript_inv in H1 as [_ ->]. apply subscript_inv in H2 as [_ ->].
  apply subscript_inv in H3 as [_ ->]. apply subscript_inv in H4 as [_ ->].
  apply subscript_inv in H5 as [_ ->]. cbn [Py.bind].
  destruct (Py.iter (field "comments" issue)) as [| cs]; [discriminate |].
  cbn [Py.bind].
  destruct (Py.traverse (Connector.comment_line py_repr) cs) as [| cl];
    [discriminate |].
  cbn [Py.bind].
  destruct (Py.iter (field "code_diff" issue)) as [| ds]; [discriminate |].
  cbn [Py.bind].
  destruct (Py.traverse (Connector.diff_line py_repr) ds) as [| dl];
    [discriminate |].
  cbn [Py.bind].
  destruct (Connector.len (field "comments" issue)) as [| n1];
    [discriminate |].
  cbn [Py.bind].
  destruct (Connector.len (field "code_diff" issue)) as [| n2];
    [discriminate |].
  cbn [Py.bind]. intros H. injection H as <-.
  split; [reflexivity |]. exists n1, n2. auto.
Qed.

(** X24: when no closed issue is discovered, [run] emits exactly one
    row, the placeholder's: its key is the [no-data] page of the
    repository, its text the placeholder's title and body over empty
    [Comments:] and [Code Diff:] sections, and both counts of its
    metadata are 0. *)
Theorem run_emits_placeholder_row :
  forall py_repr fuel scrap_link repo w w0,
    fetch_closed_issues fuel scrap_link w = Ret [] w0 ->
    repo_of scrap_link = Py.ok repo ->
    exists r,
      Connector.run py_repr fuel scrap_link w =
        Ret (Connector.Finished [r]) w0 /\
      Connector.url r = "https://github.com/" ++ repo ++ "/issues/no-data" /\
      Connector.data r =
        "Issue ID: no-data" ++ Connector.nl ++
        "Title: No issues fetched" ++ Connector.nl ++ Connector.nl ++
        "GitHub API returned zero issues." ++ Connector.nl ++ Connector.nl ++
        "Comments:" ++ Connector.nl ++ Connector.nl ++ Connector.nl ++
        "Code Diff:" ++ Connector.nl /\
      field "total_comments" (Connector._metadata r) = JNum 0 /\
      field "total_files_changed" (Connector._metadata r) = JNum 0.
Proof.
  intros py_repr fuel scrap_link repo w w0 Hnone Hrepo.
  eexists. split.
  - unfold Connector.run, bind at 1.
    rewrite (scrapIssues_empty py_repr fuel scrap_link repo w w0 Hnone Hrepo).
    unfold bind, eval, ret. rewrite Hrepo. reflexivity.
  - repeat split.
Qed.

Lemma run_emits_placeholder_row_witness :
  exists r w0,
    Connector.run sample_repr 1 sample_link no_issues =
      Ret (Connector.Finished [r]) w0 /\
    Connector.url r = "https://github.com/octo/demo/issues/no-data".
Proof.
  destruct (run_emits_placeholder_row sample_repr 1 sample_link "octo/demo"
              no_issues (emit (Request (page_url sample_link 1)) no_issues)
              eq_refl eq_refl) as (r & Hrun & Hurl & _).
  exists r. eexists. split; [exact Hrun | exact Hurl].
Defined.

(** X25: when the loop of [run] finishes, it has emitted one row per
    record, in the order of the records; the key of a row is
    [https://github.com/<repo>/issues/<issue_id>] for its record's
    [issue_id], and its metadata repeats that [issue_id] and the
    repository. *)
Theorem feed_rows_in_order :
  forall py_repr repo records rows,
    Connector.feed py_repr repo records = Connector.Finished rows ->
    List.length rows = List.length records /\
    forall i issue,
      nth_error records i = Some issue ->
      exists r,
        nth_error rows i = Some r /\
        Connector.url r =
          "https://github.com/" ++ repo ++ "/issues/" ++
          format py_repr (field "issue_id" issue) /\
        field "issue_id" (Connector._metadata r) = field "issue_id" issue /\
        field "repo" (Connector._metadata r) = JStr repo.
Proof.
  intros py_repr repo records. induction records as [| issue0 records IH];
    intros rows; cbn [Connector.feed].
  - intros H. injection H as <-. split; [reflexivity |].
    intros i issue Hi. destruct i; discriminate Hi.
  - destruct (Connector.render py_repr repo issue0) as [| r0] eqn:Hr;
      [discriminate |].
    destruct (Connector.feed py_repr repo records) as [rows' | rows' e];
      [| discriminate].
    intros H. injection H as <-. destruct (IH rows' eq_refl) as [Hlen Hnth].
    split; [cbn [List.length]; rewrite Hlen; reflexivity |].
    intros i issue Hi. destruct i as [| i]; cbn [nth_error] in *.
    + injection Hi as <-. exists r0. split; [reflexivity |].
      apply render_inv in Hr as (Hurl & n1 & n2 & _ & _ & Hmeta).
      rewrite Hmeta. split; [exact Hurl |]. split; reflexivity.
    + exact (Hnth i issue Hi).
Qed.

Lemma feed_rows_in_order_witness :
  exists rows,
    Connector.feed sample_repr "octo/demo"
      [placeholder "octo/demo"; placeholder "octo/demo"] =
      Connector.Finished rows /\
    List.length rows = 2%nat.
Proof.
  destruct (Connector.feed sample_repr "octo/demo"
              [placeholder "octo/demo"; placeholder "octo/demo"])
    as [rows | rows e] eqn:Hfeed.
  - exists rows. split; [reflexivity |].
    exact (proj1 (feed_rows_in_order sample_repr "octo/demo" _ rows Hfeed)).
  - vm_compute in Hfeed. discriminate Hfeed.
Defined.

(** X26: in the metadata of a rendered row, [total_comments] is the
    number of comments of the record and [total_files_changed] the
    number of its diffs; [comments] and [code_diff] are carried over
    unchanged. *)
Theorem render_counts :
  forall py_repr repo issue r comments diffs,
    Connector.render py_repr repo issue = Py.ok r ->
    field "comments" issue = JList comments ->
    field "code_diff" issue = JList diffs ->
    field "total_comments" (Connector._metadata r) =
      JNum (Z.of_nat (List.length comments)) /\
    field "total_files_changed" (Connector._metadata r) =
      JNum (Z.of_nat (List.length diffs)) /\
    field "comments" (Connector._metadata r) = JList comments /\
    field "code_diff" (Connector._metadata r) = JList diffs.
Proof.
  intros py_repr repo issue r comments diffs Hr Hc Hd.
  apply render_inv in Hr as (_ & n1 & n2 & H1 & H2 & ->).
  rewrite Hc in H1 |- *. rewrite Hd in H2 |- *.
  injection H1 as <-. injection H2 as <-. repeat split.
Qed.

Lemma render_counts_witness :
  exists r,
    Connector.render sample_repr "octo/demo"
      (JObj [("issue_id", JNum 7); ("title", JStr "Crash on start");
             ("body", JStr "");
             ("comments", JList [JObj [("body", JStr "Fixed.")];
                                 JObj [("body", JStr "Thanks")]]);
             ("code_diff", JList [JObj [("path", JStr "a.py");
                                        ("diff", JStr "@@ -1 +1 @@")]])]) =
      Py.ok r /\
    field "total_comments" (Connector._metadata r) = JNum 2 /\
    field "total_files_changed" (Connector._metadata r) = JNum 1.
Proof.
  destruct (Connector.render sample_repr "octo/demo"
              (JObj [("issue_id", JNum 7); ("title", JStr "Crash on start");
                     ("body", JStr "");
                     ("comments", JList [JObj [("body", JStr "Fixed.")];
                                         JObj [("body", JStr "Thanks")]]);
                     ("code_diff", JList [JObj [("path", JStr "a.py");
                                                ("diff", JStr "@@ -1 +1 @@")]])]))
    as [e | r] eqn:Hr.
  - vm_compute in Hr. discriminate Hr.
  - exists r. split; [reflexivity |].
    destruct (render_counts sample_repr "octo/demo" _ r
                [JObj [("body", JStr "Fixed.")]; JObj [("body", JStr "Thanks")]]
                [JObj [("path", JStr "a.py"); ("diff", JStr "@@ -1 +1 @@")]]
                Hr eq_refl eq_refl) as (H1 & H2 & _).
    split; [exact H1 | exact H2].
Defined.

(** X27: a record returned by [process_issue] is rendered without an
    exception provided each of its comments is a record whose [user],
    when present, is a record: the keys [run] subscripts are there and
    the diffs are records by construction. *)
Theorem render_enriched_record :
  forall py_repr fuel issue scrapLink w record w' repo,
    process_issue py_repr fuel issue scrapLink w = Ret record w' ->
    forallb renderable_comment (entries (field "comments" record)) = true ->
    exists r, Connector.render py_repr repo record = Py.ok r.
Proof.
  intros py_repr fuel issue scrapLink w record w' repo Hrun Hcs.
  apply process_issue_inv in Hrun
    as (repo0 & sha & comments & diffs & w1 & w2 & _ & _ & Hc & Hd & Hr).
  apply enriched_inv in Hr as (labels & author & assignee & ->).
  apply fetch_commit_diff_keys in Hd.
  cbn [field Py.lookup String.eqb Ascii.eqb Bool.eqb] in Hcs.
  assert (Hlist : exists cs, comments = JList cs).
  { unfold fetch_comments, bind, ret in Hc.
    destruct (fetch_json fuel (field "comments_url" issue) w1)
      as [d w3 | |]; try discriminate.
    injection Hc as <- _. destruct d; eexists; reflexivity. }
  destruct Hlist as [cs ->]. cbn [entries] in Hcs.
  unfold Connector.render.
  cbn [Py.subscript Py.lookup String.eqb Ascii.eqb Bool.eqb Py.ok Py.bind
       Py.iter].
  destruct (traverse_total (Connector.comment_line py_repr) cs) as [cl ->].
  { rewrite forallb_forall in Hcs. apply Forall_forall. intros c Hin.
    specialize (Hcs c Hin). destruct c as [| | | | | kv]; try discriminate.
    unfold Connector.comment_line. rewrite get_object.
    unfold Py.ok. cbn [Py.bind]. cbn [renderable_comment] in Hcs.
    destruct (Py.lookup "user" kv) as [u |].
    - destruct u; try discriminate. rewrite !get_object. eexists. reflexivity.
    - rewrite !get_object. eexists. reflexivity. }
  cbn [Py.bind].
  destruct (traverse_total (Connector.diff_line py_repr) diffs) as [dl ->].
  { apply Forall_forall. intros d Hin. rewrite Forall_forall in Hd.
    specialize (Hd d Hin). destruct d as [| | | | | kv]; try discriminate.
    unfold Connector.diff_line. rewrite !get_object. eexists. reflexivity. }
  cbn [Py.bind Connector.len Py.ok]. eexists. reflexivity.
Qed.

Lemma render_enriched_record_witness :
  exists record w' r,
    process_issue sample_repr 1 (sample_issue 7) sample_link lost_commit =
      Ret record w' /\
    Connector.render sample_repr "octo/demo" record = Py.ok r.
Proof.
  destruct (process_issue sample_repr 1 (sample_issue 7) sample_link
              lost_commit) as [record w' | e w' |] eqn:Hrun.
  - destruct (render_enriched_record sample_repr 1 (sample_issue 7)
                sample_link lost_commit record w' "octo/demo" Hrun)
      as [r Hr].
    + vm_compute in Hrun. injection Hrun as <- _. reflexivity.
    + exists record, w', r. split; [reflexivity | exact Hr].
  - vm_compute in Hrun. discriminate Hrun.
  - vm_compute in Hrun. discriminate Hrun.
Defined.

Lemma traverse_comment_lines_raise (py_repr : json -> string)
    (pre : list json) (c : json) (post : list json) :
  forallb renderable_comment pre = true ->
  renderable_comment c = false ->
  Py.traverse (Connector.comment_line py_repr) (pre ++ c :: post) =
  Py.raise AttributeError.
Proof.
  intros Hpre Hc. induction pre as [| x pre IH]; cbn [app Py.traverse].
  - destruct c as [| | | | | kv]; try reflexivity.
    unfold Connector.comment_line. rewrite get_object.
    unfold Py.ok. cbn [Py.bind]. cbn [renderable_comment] in Hc.
    destruct (Py.lookup "user" kv) as [u |]; [| discriminate].
    destruct u; try discriminate; reflexivity.
  - cbn [forallb] in Hpre. apply andb_prop in Hpre as [Hx Hpre].
    rewrite (IH Hpre).
    destruct x as [| | | | | kv]; try discriminate.
    unfold Connector.comment_line. rewrite get_object.
    unfold Py.ok. cbn [Py.bind]. cbn [renderable_comment] in Hx.
    destruct (Py.lookup "user" kv) as [u |].
    + destruct u; try discriminate. rewrite !get_object. reflexivity.
    + rewrite !get_object. reflexivity.
Qed.

(** X28: the loop of [run] stops at the first record one of whose
    comments is not a record or has a [user] that is not one ([null]
    for a deleted account): it raises [AttributeError] there.  The rows
    of the records before it have been emitted; those after it never
    are. *)
Theorem feed_aborts_on_ghost_comment :
  forall py_repr repo before rows bad after pre c post,
    Connector.feed py_repr repo before = Connector.Finished rows ->
    forallb (fun k => has_key k bad)
      ["issue_id"; "title"; "body"; "comments"; "code_diff"] = true ->
    field "comments" bad = JList (pre ++ c :: post) ->
    forallb renderable_comment pre = true ->
    renderable_comment c = false ->
    Connector.feed py_repr repo (before ++ bad :: after) =
    Connector.Aborted rows AttributeError.
Proof.
  intros py_repr repo before rows bad after pre c post Hbefore Hkeys Hcs
    Hpre Hc.
  assert (Hbad : Connector.render py_repr repo bad = Py.raise AttributeError).
  { cbn [forallb] in Hkeys.
    repeat match type of Hkeys with
           | (_ && _)%bool = true =>
               let H := fresh "Hk" in apply andb_prop in Hkeys as [H Hkeys]
           end.
    unfold Connector.render.
    rewrite !subscript_has_key by assumption. unfold Py.ok. cbn [Py.bind].
    rewrite Hcs. cbn [Py.iter Py.ok Py.bind].
    rewrite (traverse_comment_lines_raise py_repr pre c post Hpre Hc).
    reflexivity. }
  clear Hkeys Hcs Hpre Hc. revert rows Hbefore.
  induction before as [| r0 before IH]; intros rows Hbefore;
    cbn [app Connector.feed] in *.
  - injection Hbefore as <-. rewrite Hbad. reflexivity.
  - destruct (Connector.render py_repr repo r0) as [| row0];
      [discriminate |].
    destruct (Connector.feed py_repr repo before) as [rows' | rows' e];
      [| discriminate].
    injection Hbefore as <-. rewrite (IH rows' eq_refl). reflexivity.
Qed.

Lemma feed_aborts_on_ghost_comment_witness :
  exists rows,
    Connector.feed sample_repr "octo/demo"
      [placeholder "octo/demo";
       JObj [("issue_id", JNum 7); ("title", JStr "Crash on start");
             ("body", JStr "");
             ("comments", JList [JObj [("body", JStr "Fixed.")];
                                 JObj [("user", JNull);
                                       ("body", JStr "Same here.")]]);
             ("code_diff", JList [])];
       placeholder "octo/demo"] =
    Connector.Aborted rows AttributeError /\
    List.length rows = 1%nat.
Proof.
  destruct (Connector.feed sample_repr "octo/demo" [placeholder "octo/demo"])
    as [rows | rows e] eqn:Hfeed.
  - exists rows. split.
    + apply (feed_aborts_on_ghost_comment sample_repr "octo/demo"
               [placeholder "octo/demo"] rows _ [placeholder "octo/demo"]
               [JObj [("body", JStr "Fixed.")]]
               (JObj [("user", JNull); ("body", JStr "Same here.")]) []
               Hfeed); reflexivity.
    + vm_compute in Hfeed. injection Hfeed as <-. reflexivity.
  - vm_compute in Hfeed. discriminate Hfeed.
Defined.

Lemma dec_injective (n m : Z) : Py.dec n = Py.dec m -> n = m.
Proof.
  unfold Py.dec. intros H.
  assert (Hnil : forall z, Z.to_int z <> Decimal.Pos Decimal.Nil /\
                           Z.to_int z <> Decimal.Neg Decimal.Nil).
  { intros [| p | p]; cbn; split; try discriminate; intros E;
      injection E as E; exact (DecimalPos.Unsigned.to_uint_nonnil p E). }
  apply (f_equal NilZero.int_of_string) in H.
  destruct (Hnil n) as [Hn1 Hn2], (Hnil m) as [Hm1 Hm2].
  rewrite !NilZero.isi in H by assumption.
  injection H as H. exact (DecimalZ.to_int_inj n m H).
Qed.

Lemma append_cancel (a x y : string) : a ++ x = a ++ y -> x = y.
Proof.
  induction a as [| c a IH]; cbn; [auto |].
  intros H. injection H as H. exact (IH H).
Qed.

(** X29: the key of a row, the primary key of the indexed table, tells
    issues apart: two records of one repository whose [issue_id] are
    different numbers are rendered to rows with different keys. *)
Theorem render_keys_distinct :
  forall py_repr repo issue1 issue2 r1 r2 n1 n2,
    Connector.render py_repr repo issue1 = Py.ok r1 ->
    Connector.render py_repr repo issue2 = Py.ok r2 ->
    field "issue_id" issue1 = JNum n1 ->
    field "issue_id" issue2 = JNum n2 ->
    n1 <> n2 ->
    Connector.url r1 <> Connector.url r2.
Proof.
  intros py_repr repo issue1 issue2 r1 r2 n1 n2 H1 H2 Hn1 Hn2 Hne Heq.
  apply render_inv in H1 as [Hu1 _]. apply render_inv in H2 as [Hu2 _].
  rewrite Hu1, Hu2, Hn1, Hn2 in Heq. cbn [format] in Heq.
  apply append_cancel, append_cancel, append_cancel in Heq.
  exact (Hne (dec_injective n1 n2 Heq)).
Qed.

Lemma render_keys_distinct_witness :
  exists r1 r2,
    Connector.render sample_repr "octo/demo"
      (JObj [("issue_id", JNum 7); ("title", JNull); ("body", JNull);
             ("comments", JList []); ("code_diff", JList [])]) = Py.ok r1 /\
    Connector.render sample_repr "octo/demo"
      (JObj [("issue_id", JNum 70); ("title", JNull); ("body", JNull);
             ("comments", JList []); ("code_diff", JList [])]) = Py.ok r2 /\
    Connector.url r1 <> Connector.url r2.
Proof.
  do 2 eexists. split; [reflexivity |]. split; [reflexivity |].
  apply (render_keys_distinct sample_repr "octo/demo"
           (JObj [("issue_id", JNum 7); ("title", JNull); ("body", JNull);
                  ("comments", JList []); ("code_diff", JList [])])
           (JObj [("issue_id", JNum 70); ("title", JNull); ("body", JNull);
                  ("comments", JList []); ("code_diff", JList [])])
           _ _ 7 70); try reflexivity.
  discriminate.
Defined.

(** X30: the headers of every request accept
    [application/vnd.github+json]; they carry an [Authorization] header
    exactly when [GITHUB_PAT] is set and not empty, and then it is
    [Bearer] followed by the token.  An empty token is sent as no
    token. *)
Theorem github_headers_authorization :
  forall GITHUB_PAT,
    field "Accept" (github_headers GITHUB_PAT) =
      JStr "application/vnd.github+json" /\
    (has_key "Authorization" (github_headers GITHUB_PAT) = true <->
     exists token, GITHUB_PAT = Some token /\ token <> "") /\
    (forall token,
        GITHUB_PAT = Some token -> token <> "" ->
        field "Authorization" (github_headers GITHUB_PAT) =
        JStr ("Bearer " ++ token)).
Proof.
  intros [token |]; unfold github_headers.
  - destruct (String.eqb_spec token "") as [-> | Hne]; cbn [negb].
    + split; [reflexivity |]. split.
      * split; [discriminate |]. intros (t & Ht & Hne).
        injection Ht as <-. contradiction.
      * intros t Ht Hne. injection Ht as <-. contradiction.
    + split; [reflexivity |]. split.
      * split; [intros _; exists token; auto | reflexivity].
      * intros t Ht _. injection Ht as <-. reflexivity.
  - split; [reflexivity |]. split.
    + split; [discriminate |]. intros (t & Ht & _). discriminate Ht.
    + intros t Ht. discriminate Ht.
Qed.

Lemma github_headers_authorization_witness :
  field "Authorization" (github_headers (Some "ghp_token")) =
    JStr "Bearer ghp_token" /\
  has_key "Authorization" (github_headers (Some "")) = false.
Proof.
  split; [| reflexivity].
  apply (proj2 (proj2 (github_headers_authorization (Some "ghp_token")))
           "ghp_token"); [reflexivity | discriminate].
Defined.
